(** * MiV-Simulator: LFP estimator and opsin stimulation protocols

    A shallow embedding of [src/miv_simulator/lfp.py] and
    [src/miv_simulator/opsin/protocols.py].

    Python floats are IEEE binary64 values and are embedded as Rocq's
    primitive floats; the places where Python raises instead of producing
    an IEEE special value (true division by zero, [math.sqrt] and
    [math.log] outside their domains, [round] of a non-finite value) are
    written out in an exception monad.  Library functions with no
    counterpart among the primitive operations ([math.log], [np.cos], the
    scipy spline constructor, [list.sort]) and the NEURON host are
    parameters.

    protocols.py binds at module level its imports ([warnings], [logging],
    [os], [abc], [OrderedDict], [np], [spline], [get_module_logger],
    [PyRhOobject]), [logger], its classes, [protocols] and
    [selectProtocol].  Its functions also read [protList], [protParams],
    [cycles2times], [config] and [round_sig], which the module binds
    nowhere: such a read raises NameError when the line runs, and is
    embedded as [unbound]. *)

From Stdlib Require Import ZArith List String Bool Lia.
From Stdlib Require Import Floats.
Import ListNotations.

Set Warnings "-inexact-float".

(** ** Python values, exceptions and float helpers *)

Module Py.

(** The built-in exceptions the two source files can raise. *)
Inductive exn : Type :=
| ZeroDivisionError
| ValueError
| TypeError
| IndexError
| OverflowError
| AssertionError
| AttributeError
| KeyError (key : string)
| UnboundLocalError (name : string)
| NameError (name : string)
| NotImplementedError (arg : string).

Inductive result (A : Type) : Type :=
| Ok (a : A)
| Raise (e : exn).
Arguments Ok {A} a.
Arguments Raise {A} e.

Definition bind {A B : Type} (c : result A) (k : A -> result B) : result B :=
  match c with
  | Ok a => k a
  | Raise e => Raise e
  end.

Definition is_ok {A : Type} (c : result A) : bool :=
  match c with Ok _ => true | Raise _ => false end.

(** Reading a global name that the module binds nowhere; [A] is the type
    the code that follows expects of the value. *)
Definition unbound (A : Type) (name : string) : result A :=
  Raise (NameError name).

(** [seq[i]] on a Python list, a numpy array or a hoc Vector, for an
    index that is not negative. *)
Definition getitem {A : Type} (l : list A) (i : nat) : result A :=
  match nth_error l i with
  | Some a => Ok a
  | None => Raise IndexError
  end.

(** [seq[i] = v]; Python, numpy and hoc Vectors raise out of range. *)
Fixpoint setitem {A : Type} (l : list A) (i : nat) (v : A) : result (list A) :=
  match l, i with
  | [], _ => Raise IndexError
  | _ :: tl, O => Ok (v :: tl)
  | hd :: tl, S i' =>
      match setitem tl i' v with
      | Ok tl' => Ok (hd :: tl')
      | Raise e => Raise e
      end
  end.

(** [[f(x) for x in l]] *)
Fixpoint map_result {A B : Type} (f : A -> result B) (l : list A)
  : result (list B) :=
  match l with
  | [] => Ok []
  | x :: tl =>
      match f x with
      | Ok y =>
          match map_result f tl with
          | Ok ys => Ok (y :: ys)
          | Raise e => Raise e
          end
      | Raise e => Raise e
      end
  end.

(** [d[k]] on a dict kept as an association list in insertion order. *)
Fixpoint dict_get {A : Type} (d : list (string * A)) (k : string) : result A :=
  match d with
  | [] => Raise (KeyError k)
  | (k', v) :: tl => if String.eqb k' k then Ok v else dict_get tl k
  end.

(** [d[k] = v]: an existing key keeps its position, a new one is appended. *)
Fixpoint dict_set {A : Type} (d : list (string * A)) (k : string) (v : A)
  : list (string * A) :=
  match d with
  | [] => [(k, v)]
  | (k', v') :: tl =>
      if String.eqb k' k then (k, v) :: tl else (k', v') :: dict_set tl k v
  end.

End Py.

Import Py.

Declare Scope py_scope.
Delimit Scope py_scope with py.
Notation "'let*' x ':=' c 'in' k" := (bind c (fun x => k))
  (at level 10, x name, c at level 100, k at level 200) : py_scope.
Notation "'let*' ' pat ':=' c 'in' k" :=
  (bind c (fun x => match x with pat => k end))
  (at level 10, pat pattern, c at level 100, k at level 200) : py_scope.
Open Scope py_scope.

Module PyFloat.

Open Scope float_scope.

(** [math.pi], the double nearest to pi. *)
Definition pi : float := 0x1.921fb54442d18p+1.

(** [x / y] on Python floats: a zero divisor of either sign raises. *)
Definition truediv (x y : float) : result float :=
  if y =? 0 then Raise ZeroDivisionError else Ok (x / y).

(** [math.sqrt]: a negative argument is a domain error, NaN passes. *)
Definition math_sqrt (x : float) : result float :=
  if x <? 0 then Raise ValueError else Ok (sqrt x).

(** [math.log] over the C library's [log]: zero and negative arguments
    are domain errors, NaN passes. *)
Definition math_log (libm_log : float -> float) (x : float) : result float :=
  if x <=? 0 then Raise ValueError else Ok (libm_log x).

(** [math.isnan]. *)
Definition isnan (x : float) : bool := is_nan x.

(** Conversion of a Python [int] to [float], for ints below [2^63]. *)
Definition of_Z (n : Z) : float :=
  if (n <? 0)%Z then - of_uint63 (Uint63.of_Z (- n))
  else of_uint63 (Uint63.of_Z n).

Definition of_nat (n : nat) : float := of_Z (Z.of_nat n).

(** Round half to even of [m / 2^k]. *)
Definition round_half_even (m : Z) (k : Z) : Z :=
  let d := (2 ^ k)%Z in
  let q := (m / d)%Z in
  let r := (m mod d)%Z in
  match (2 * r ?= d)%Z with
  | Lt => q
  | Gt => (q + 1)%Z
  | Eq => if Z.even q then q else (q + 1)%Z
  end.

(** [round(x)] with one argument: the nearest integer, ties to even;
    NaN and the infinities cannot be converted. *)
Definition round (x : float) : result Z :=
  match Prim2SF x with
  | S754_zero _ => Ok 0%Z
  | S754_infinity _ => Raise OverflowError
  | S754_nan => Raise ValueError
  | S754_finite s m e =>
      let mag :=
        if (0 <=? e)%Z then (Z.pos m * 2 ^ e)%Z
        else round_half_even (Z.pos m) (- e) in
      Ok (if s then (- mag)%Z else mag)
  end.

(** Values that are not negative: NaN, zeros and positive values whose
    sign bit is clear. *)
Definition NNs (f : spec_float) : Prop :=
  match f with
  | S754_zero s | S754_infinity s | S754_finite s _ _ => s = false
  | S754_nan => True
  end.




End PyFloat.

(** ** lfp.py *)

Module Lfp.

Import PyFloat.
Open Scope float_scope.

(** *** The NEURON host, as far as lfp.py reads and writes it *)

(** One [pt3d] entry of a section: [x3d(i)], [y3d(i)], [z3d(i)], [arc3d(i)]. *)
Record Pt3d : Type := mkPt3d {
  x3d : float;
  y3d : float;
  z3d : float;
  arc3d : float
}.

(** A segment, as [for seg in sec] yields it. *)
Record Seg : Type := mkSeg {
  area : float;          (* h.area(seg.x) *)
  i_membrane : float     (* seg._ref_i_membrane[0] *)
}.

(** A section, by what lfp.py reads of it.  The record holds any float
    and any count; NEURON itself reads [sec.L] as at least 1e-9 and keeps
    [sec.nseg] between 1 and 32767 ([neuron_section] below). *)
Record Sec : Type := mkSec {
  nseg : nat;
  L : float;
  pt3d : list Pt3d;
  extracellular : bool;  (* h.ismembrane("extracellular", sec=sec) *)
  segs : list Seg
}.


(** A cell object; [is_art], [is_reduced] and [soma_list] are attributes
    a cell may lack ([hasattr]). *)
Record Cell : Type := mkCell {
  is_art : option float;
  is_reduced : option bool;
  soma_list : option (list Sec);
  all : list Sec
}.

(** [pc.gid_exists] and [pc.gid2cell] of this process. *)
Definition Host : Type := Z -> option Cell.

Definition gid2cell (host : Host) (gid : Z) : result Cell :=
  match host gid with
  | Some c => Ok c
  | None => Raise ValueError
  end.

Definition host_set (host : Host) (gid : Z) (c : Cell) : Host :=
  fun g => if (g =? gid)%Z then Some c else host g.

(** [sec.insert("extracellular")]. *)
Definition insert_extracellular (sec : Sec) : Sec :=
  mkSec (nseg sec) (L sec) (pt3d sec) true (segs sec).

Section WithHost.

(** The C library's [log] behind [math.log]. *)
Variable libm_log : float -> float.

(** hoc [dest.interpolate(xdest, xsrc, ysrc)]: [ysrc] over [xsrc],
    linearly interpolated at the abscissae [xdest]. *)
Variable interpolate : list float -> list float -> list float -> list float.

(** [h.Random(seed)] with [uniform(0, 1)]: the n-th [repick()]. *)
Variable ranlfp : Z -> nat -> float.

(** [interpxyz]: the node coordinates of a section with [nn] pt3d
    points and [nsegs] segments, left in [xint], [yint], [zint]. *)
Definition interpxyz (nn nsegs : nat) (xx yy zz ll : list float)
  : result (list float * list float * list float) :=
  (* ll.div(ll.x[nn - 1]) *)
  let* last := (match nn with
                | O => Raise IndexError
                | S n' => getitem ll n'
                end) in
  let ll := map (fun v => v / last) ll in
  (* rangev = h.Vector(nsegs + 2); rangev.indgen(1.0 / nsegs) *)
  let* step := truediv 1.0 (of_nat nsegs) in
  let rangev := map (fun i => of_nat i * step) (seq 0 (nsegs + 2)) in
  (* rangev.sub(1.0 / (2 * nsegs)) *)
  let* half := truediv 1.0 (of_nat (2 * nsegs)) in
  let rangev := map (fun v => v - half) rangev in
  (* rangev.x[0] = 0; rangev.x[nsegs + 1] = 1 *)
  let* rangev := setitem rangev 0 0 in
  let* rangev := setitem rangev (nsegs + 1) 1 in
  Ok (interpolate rangev ll xx, interpolate rangev ll yy,
      interpolate rangev ll zz).

(** *** LFP objects *)

Record LFP : Type := mkLFP {
  label : string;
  dt_lfp : float;
  seed : Z;
  epoint : float * float * float;
  maxEDist : float;
  rho : float;
  fdst : float;
  meanlfp : list float;
  t : list float;
  lfp_ids : list (string * list Z);
  lfp_types : list (string * list Z);
  lfp_coeffs : list (string * list (list float));
  pop_gid_dict : list (string * list Z)   (* each gid set in the order Python iterates it *)
}.

Definition set_tables (self : LFP) ids types coeffs : LFP :=
  mkLFP (label self) (dt_lfp self) (seed self) (epoint self)
    (maxEDist self) (rho self) (fdst self) (meanlfp self) (t self)
    ids types coeffs (pop_gid_dict self).

Definition set_samples (self : LFP) (m ts : list float) : LFP :=
  mkLFP (label self) (dt_lfp self) (seed self) (epoint self)
    (maxEDist self) (rho self) (fdst self) m ts
    (lfp_ids self) (lfp_types self) (lfp_coeffs self) (pop_gid_dict self).

(** *** setup_lfp_coeffs *)

(** Lines 143-173 of the body of [for seg in sec]: the line-source
    weight [k] of the segment at node ([sx], [sy], [sz]) of a section whose
    0-end node is ([sx0], [sy0], [sz0]), as the formula gives it. *)
Definition line_source (self : LFP) (sec : Sec)
    (s0 s : float * float * float) (seg : Seg) : result float :=
  let '(ex, ey, ez) := epoint self in
  let '(sx0, sy0, sz0) := s0 in
  let '(sx, sy, sz) := s in
  let* l := truediv (L sec) (of_nat (nseg sec)) in
  let* rd := math_sqrt ((ex - sx) * (ex - sx)
                        + (ey - sy) * (ey - sy)
                        + (ez - sz) * (ez - sz)) in
  let* ld := math_sqrt ((sx - sx0) * (sx - sx0)
                        + (sy - sy0) * (sy - sy0)
                        + (sz - sz0) * (sz - sz0)) in
  let sd := l - ld in
  let a := 0.0001 * area seg in
  let* q := truediv (rho self) (4.0 * pi * l) in
  let* num := math_sqrt (ld * ld + rd * rd) in
  let* den := math_sqrt (sd * sd + rd * rd) in
  let* ratio := truediv (num - ld) (den - sd) in
  let* lg := math_log libm_log ratio in
  Ok (a * q * abs lg).

(** Lines 143-175: the weight after the NaN guard,
    [if math.isnan(k): k = 0.0]. *)
Definition base_coeff (self : LFP) (sec : Sec)
    (s0 s : float * float * float) (seg : Seg) : result float :=
  let* k := line_source self sec s0 s seg in
  if isnan k then Ok 0.0 else Ok k.

(** Lines 143-178: the value written to [lfp_coeffs.o(i).x[j]]. *)
Definition seg_coeff (self : LFP) (lfptype : Z) (sec : Sec)
    (s0 s : float * float * float) (seg : Seg) : result float :=
  let* k := base_coeff self sec s0 s seg in
  (* Distal cell *)
  if (lfptype =? 2)%Z then
    let* w := truediv 1.0 (fdst self) in
    Ok (w * k)
  else Ok k.

(** [for seg in sec]: writes [lfp_coeffs.o(i).x[j]] for [j = 0, 1, ...]. *)
Fixpoint seg_loop (self : LFP) (lfptype : Z) (sec : Sec)
    (xi yi zi : list float) (s0 : float * float * float)
    (ss : list Seg) (j : nat) (vec : list float) : result (list float) :=
  match ss with
  | [] => Ok vec
  | seg :: rest =>
      let* sx := getitem xi j in
      let* sy := getitem yi j in
      let* sz := getitem zi j in
      let* k := seg_coeff self lfptype sec s0 (sx, sy, sz) seg in
      let* vec := setitem vec j k in
      seg_loop self lfptype sec xi yi zi s0 rest (S j) vec
  end.

(** The body of [for sec in list(cell.all)]. *)
Definition sec_coeffs (self : LFP) (lfptype : Z) (sec : Sec)
    (vec : list float) : result (list float) :=
  if extracellular sec then
    let nn := List.length (pt3d sec) in
    let xx := map x3d (pt3d sec) in
    let yy := map y3d (pt3d sec) in
    let zz := map z3d (pt3d sec) in
    let ll := map arc3d (pt3d sec) in
    let* '(xi, yi, zi) := interpxyz nn (nseg sec) xx yy zz ll in
    let* sx0 := getitem xi 0 in
    let* sy0 := getitem yi 0 in
    let* sz0 := getitem zi 0 in
    seg_loop self lfptype sec xi yi zi (sx0, sy0, sz0) (segs sec) 0 vec
  else Ok vec.

Fixpoint cell_coeffs (self : LFP) (lfptype : Z) (secs : list Sec)
    (vec : list float) : result (list float) :=
  match secs with
  | [] => Ok vec
  | sec :: rest =>
      let* vec := sec_coeffs self lfptype sec vec in
      cell_coeffs self lfptype rest vec
  end.

(** [for i in range(0, int(lfp_ids.size()))] of one population. *)
Fixpoint pop_coeffs (self : LFP) (host : Host) (ids types : list Z)
    (i : nat) (n : nat) (coeffs : list (list float))
  : result (list (list float)) :=
  match n with
  | O => Ok coeffs
  | S n' =>
      let* gid := getitem ids i in
      let* cell := gid2cell host gid in
      let* ty := getitem types i in
      let* vec := getitem coeffs i in
      let* vec := cell_coeffs self ty (all cell) vec in
      let* coeffs := setitem coeffs i vec in
      pop_coeffs self host ids types (S i) n' coeffs
  end.

Fixpoint setup_lfp_coeffs_loop (self : LFP) (host : Host)
    (pops : list string) : result LFP :=
  match pops with
  | [] => Ok self
  | pop_name :: rest =>
      let* ids := dict_get (lfp_ids self) pop_name in
      let* types := dict_get (lfp_types self) pop_name in
      let* coeffs := dict_get (lfp_coeffs self) pop_name in
      let* coeffs := pop_coeffs self host ids types 0 (List.length ids) coeffs in
      let self := set_tables self (lfp_ids self) (lfp_types self)
                    (dict_set (lfp_coeffs self) pop_name coeffs) in
      setup_lfp_coeffs_loop self host rest
  end.

Definition setup_lfp_coeffs (self : LFP) (host : Host) : result LFP :=
  setup_lfp_coeffs_loop self host (map fst (pop_gid_dict self)).

(** *** setup_lfp *)

(** [v ** 2] on a Python float: a finite base whose square overflows
    raises. *)
Definition pow2 (v : float) : result float :=
  let r := v * v in
  if is_infinity r && is_finite v then Raise OverflowError else Ok r.

(** [lfp_ids], [lfp_types] and [lfp_coeffs] of the population at hand. *)
Record Tables : Type := mkTables {
  tab_ids : list Z;
  tab_types : list Z;
  tab_coeffs : list (list float)
}.

(** Lines 235-246: proximal (1), sampled distal (2) or left out (0). *)
Definition lfptype_of (self : LFP) (dist ransample : float) : Z :=
  if dist <? maxEDist self then 1%Z
  else if ransample <? fdst self then 2%Z
  else 0%Z.

(** The distance of the first soma point from the electrode, lines 222-237. *)
Definition soma_dist (self : LFP) (cell : Cell) : result float :=
  let '(ex, ey, ez) := epoint self in
  let* somasec := (match soma_list cell with
                   | Some secs => Ok secs
                   | None => Raise AttributeError
                   end) in
  let* soma := getitem somasec 0 in
  let* p := getitem (pt3d soma) 0 in
  let x := x3d p in
  let y := y3d p in
  let z := z3d p in
  let* dx := pow2 (x - ex) in
  let* dy := pow2 (y - ey) in
  let* dz := pow2 (z - ez) in
  math_sqrt (dx + dy + dz).

(** Lines 210-212: [is_art = cell.is_art() > 0] where the cell has the
    method, [False] otherwise. *)
Definition cell_is_art (cell : Cell) : bool :=
  match is_art cell with
  | Some v => 0 <? v
  | None => false
  end.

(** Lines 216-218: [cell.is_reduced] where the cell has the attribute. *)
Definition cell_is_reduced (cell : Cell) : bool :=
  match is_reduced cell with
  | Some b => b
  | None => false
  end.

(** The type the loop body settles on for one candidate gid; [None] where
    it reaches a [continue]. *)
Definition gid_lfptype (self : LFP) (host : Host) (gid : Z)
    (ransample : float) : result (option Z) :=
  match host gid with
  | None => Ok None                          (* not self.pc.gid_exists(gid) *)
  | Some cell =>
      if cell_is_art cell then Ok None
      else if cell_is_reduced cell then Ok None
      else
        let* dist := soma_dist self cell in
        Ok (Some (lfptype_of self dist ransample))
  end.

(** Lines 248-257: a cell of type 1 or 2 is recorded, its sections get the
    extracellular mechanism and a zeroed Vector with one entry per segment
    is appended to [lfp_coeffs]. *)
Definition record_cell (host : Host) (tabs : Tables) (gid lfptype : Z)
    (cell : Cell) : Host * Tables :=
  let secs := map insert_extracellular (all cell) in
  let n := fold_left (fun n sec => (n + nseg sec)%nat) (all cell) 0%nat in
  let cell' := mkCell (is_art cell) (is_reduced cell) (soma_list cell) secs in
  (host_set host gid cell',
   mkTables (tab_ids tabs ++ [gid]) (tab_types tabs ++ [lfptype])
            (tab_coeffs tabs ++ [repeat 0 n])).

(** The body of [for gid in self.pop_gid_dict[pop_name]], after the draw. *)
Definition setup_gid (self : LFP) (st : Host * Tables) (gid : Z)
    (ransample : float) : result (Host * Tables) :=
  let '(host, tabs) := st in
  let* ty := gid_lfptype self host gid ransample in
  match ty, host gid with
  | Some lfptype, Some cell =>
      if (lfptype >? 0)%Z then Ok (record_cell host tabs gid lfptype cell)
      else Ok st
  | _, _ => Ok st
  end.

(** [for gid in ...]: one [ranlfp.repick()] per candidate, owned or not. *)
Fixpoint gid_loop (self : LFP) (rseed : Z) (gids : list Z) (n : nat)
    (st : Host * Tables) : result (Host * Tables) :=
  match gids with
  | [] => Ok st
  | gid :: rest =>
      let ransample := ranlfp rseed n in
      let* st := setup_gid self st gid ransample in
      gid_loop self rseed rest (S n) st
  end.

Fixpoint insert_sorted (k : string) (l : list string) : list string :=
  match l with
  | [] => [k]
  | h :: tl => if String.ltb k h then k :: l else h :: insert_sorted k tl
  end.

(** [sorted(d.keys())] *)
Definition sorted (l : list string) : list string :=
  fold_right insert_sorted [] l.

(** [for (ipop, pop_name) in enumerate(sorted(self.pop_gid_dict.keys()))] *)
Fixpoint pop_loop (self : LFP) (host : Host) (pops : list string)
    (ipop : Z) : result (LFP * Host) :=
  match pops with
  | [] => Ok (self, host)
  | pop_name :: rest =>
      let* gids := dict_get (pop_gid_dict self) pop_name in
      let* '(host, tabs) :=
        gid_loop self (seed self + ipop)%Z gids 0 (host, mkTables [] [] []) in
      let self := set_tables self
                    (dict_set (lfp_ids self) pop_name (tab_ids tabs))
                    (dict_set (lfp_types self) pop_name (tab_types tabs))
                    (dict_set (lfp_coeffs self) pop_name (tab_coeffs tabs)) in
      pop_loop self host rest (ipop + 1)%Z
  end.

Definition setup_lfp (self : LFP) (host : Host) : result (LFP * Host) :=
  let* '(self, host) :=
    pop_loop self host (sorted (map fst (pop_gid_dict self))) 0%Z in
  let* self := setup_lfp_coeffs self host in
  Ok (self, host).

(** [LFP.__init__]; the defaults are [rho=333.0], [fdst=0.1],
    [maxEDist=100.0], [dt_lfp=0.5], [seed=1].  Registering [sample_lfp]
    with [h.FInitializeHandler] is the host's business. *)
Definition init (host : Host) (label : string)
    (pop_gid_dict : list (string * list Z)) (pos : float * float * float)
    (rho fdst maxEDist dt_lfp : float) (seed : Z) : result (LFP * Host) :=
  let self := mkLFP label dt_lfp seed pos maxEDist rho fdst
                [] [] [] [] [] pop_gid_dict in
  setup_lfp self host.

(** *** pos_lfp and sample_lfp *)

(** [for seg in sec] of [pos_lfp]. *)
Fixpoint seg_sum (coeffs : list (list float)) (i : nat) (ss : list Seg)
    (j : nat) (vlfp : float) : result float :=
  match ss with
  | [] => Ok vlfp
  | seg :: rest =>
      let* vec := getitem coeffs i in
      let* c := getitem vec j in
      seg_sum coeffs i rest (S j) (vlfp + i_membrane seg * c)
  end.

Fixpoint sec_sum (coeffs : list (list float)) (i : nat) (secs : list Sec)
    (vlfp : float) : result float :=
  match secs with
  | [] => Ok vlfp
  | sec :: rest =>
      let* vlfp := (if extracellular sec
                    then seg_sum coeffs i (segs sec) 0 vlfp
                    else Ok vlfp) in
      sec_sum coeffs i rest vlfp
  end.

Fixpoint cell_sum (host : Host) (ids : list Z) (coeffs : list (list float))
    (i n : nat) (vlfp : float) : result float :=
  match n with
  | O => Ok vlfp
  | S n' =>
      let* gid := getitem ids i in
      let* cell := gid2cell host gid in
      let* vlfp := sec_sum coeffs i (all cell) vlfp in
      cell_sum host ids coeffs (S i) n' vlfp
  end.

Fixpoint pop_sum (self : LFP) (host : Host) (pops : list string)
    (vlfp : float) : result float :=
  match pops with
  | [] => Ok vlfp
  | pop_name :: rest =>
      let* ids := dict_get (lfp_ids self) pop_name in
      let* coeffs := dict_get (lfp_coeffs self) pop_name in
      let* vlfp := cell_sum host ids coeffs 0 (List.length ids) vlfp in
      pop_sum self host rest vlfp
  end.

(** What one invocation of [sample_lfp] finds in the host: the cells with
    their membrane currents, [pc.id()], [h.t] and the sum the other
    processes contribute to [pc.allreduce(vlfp, 1)]. *)
Record Tick : Type := mkTick {
  tick_host : Host;
  tick_rank : Z;
  tick_t : float;
  tick_allreduce : float -> float
}.

Definition pos_lfp (self : LFP) (tk : Tick) : result float :=
  let* vlfp := pop_sum self (tick_host tk) (map fst (pop_gid_dict self)) 0 in
  Ok (tick_allreduce tk vlfp).

(** [sample_lfp]: the new object and the time of the event it queues with
    [h.cvode.event]. *)
Definition sample_lfp (self : LFP) (tk : Tick) : result (LFP * float) :=
  let* m := pos_lfp self tk in
  let self := if (tick_rank tk =? 0)%Z
              then set_samples self (meanlfp self ++ [m])
                                    (t self ++ [tick_t tk])
              else self in
  Ok (self, tick_t tk + dt_lfp self).

(** The objects the host sees after a series of invocations; an invocation
    that raises leaves the object as it was. *)
Fixpoint run_samples (self : LFP) (tks : list Tick) : LFP :=
  match tks with
  | [] => self
  | tk :: rest =>
      match sample_lfp self tk with
      | Ok (self', _) => run_samples self' rest
      | Raise _ => run_samples self rest
      end
  end.

End WithHost.

End Lfp.

(** ** opsin/protocols.py *)

Module Protocols.

Import PyFloat.
Open Scope float_scope.

(** *** numpy *)

(** A two-dimensional float array, by rows. *)
Definition array2d : Type := list (list float).

Fixpoint set_last (l : list float) (v : float) : list float :=
  match l with
  | [] => []
  | [_] => [v]
  | x :: tl => x :: set_last tl v
  end.

(** [np.linspace(start, stop, num, endpoint=True)], as numpy computes it:
    [arange(0, num) * step + start] with the last sample set to [stop];
    a zero step takes the route numpy has for denormal steps. *)
Definition linspace (start stop : float) (num : Z) : result (list float) :=
  if (num <? 0)%Z then Raise ValueError
  else
    let div := (num - 1)%Z in
    let delta := stop - start in
    let y := map of_nat (seq 0 (Z.to_nat num)) in
    let y := if (0 <? div)%Z then
               let step := delta / of_Z div in
               if step =? 0 then map (fun v => v / of_Z div * delta) y
               else map (fun v => v * step) y
             else map (fun v => v * delta) y in
    let y := map (fun v => v + start) y in
    Ok (if (1 <? num)%Z then set_last y stop else y).

(** [a[np.ma.where(a < 0)] = 0] *)
Definition clamp_negative (a : list float) : list float :=
  map (fun v => if v <? 0 then 0 else v) a.

(** *** The attributes [setParams] leaves for [prepare] *)

Inductive seqkind : Type := KList | KTuple | KArray.

(** An element of a sequence: a number, or a list, tuple or 1-D array of
    numbers. *)
Inductive item : Type :=
| IScalar (x : float)
| IRow (k : seqkind) (r : list float).

(** The values [cycles] is given, to the depth [prepare] looks. *)
Inductive cycles_value : Type :=
| CyNone
| CyNum (x : float)
| CyStr (s : string)
| CyDict (d : list (string * float))
| CySeq (k : seqkind) (items : list item).

(** [phis] and [Vs]: unset ([None]), one number, or a list, a tuple or an
    array of numbers. *)
Inductive numarg : Type :=
| NoArg
| Num (x : float)
| Nums (l : list float)
| NumsTuple (l : list float)
| NumsArray (l : list float).

Record RawProtocol : Type := mkRaw {
  raw_cycles : cycles_value;
  raw_Dt_delay : option float;
  raw_Dt_total : option float;    (* the class attribute is [None] *)
  raw_phis : numarg;
  raw_Vs : numarg
}.

(** [np.isscalar]: numbers and strings are scalars, [None] and the
    containers are not. *)
Definition isscalar (v : cycles_value) : bool :=
  match v with
  | CyNum _ | CyStr _ => true
  | _ => false
  end.

(** [isinstance(v, (list, tuple, np.ndarray))] *)
Definition is_sequence (v : cycles_value) : bool :=
  match v with
  | CySeq _ _ => true
  | _ => false
  end.

Definition item_isscalar (i : item) : bool :=
  match i with
  | IScalar _ => true
  | IRow _ _ => false
  end.

(** [hasattr(self, 'Dt_total')]: the class body of [Protocol] sets
    [Dt_total = None], so the attribute is always found. *)
Definition hasattr_Dt_total (self : RawProtocol) : bool := true.

(** A number out of an attribute that may hold [None]: arithmetic on [None]
    is a TypeError. *)
Definition number (v : option float) : result float :=
  match v with
  | Some x => Ok x
  | None => Raise TypeError
  end.

(** [np.asarray] of a sequence whose elements are all numbers: one row. *)
Fixpoint as_row (items : list item) : result (list float) :=
  match items with
  | [] => Ok []
  | IScalar x :: tl => let* r := as_row tl in Ok (x :: r)
  | IRow _ _ :: _ => Raise ValueError
  end.

(** [np.asarray] of a sequence of rows: the rows must be sequences of one
    length [n] (numpy 1.24 and later refuse a ragged nesting). *)
Fixpoint as_rows (n : nat) (items : list item) : result array2d :=
  match items with
  | [] => Ok []
  | IRow _ r :: tl =>
      if (List.length r =? n)%nat
      then let* a := as_rows n tl in Ok (r :: a)
      else Raise ValueError
  | IScalar _ :: _ => Raise ValueError
  end.

(** The pending value of [self.cycles] after lines 80-91. *)
Inductive pending : Type :=
| PArr (a : array2d)                       (* np.asarray([[Dt_on, Dt_off]]) *)
| PWrapped (k : seqkind) (items : list item)   (* [self.cycles] *)
| PSeq (k : seqkind) (items : list item).      (* self.cycles as given *)

(** Line 93, [np.asarray(self.cycles)]. *)
Definition asarray (c : pending) : result array2d :=
  match c with
  | PArr a => Ok a
  | PWrapped _ items => let* r := as_row items in Ok [r]
  | PSeq _ items =>
      match items with
      | IRow _ r :: _ => as_rows (List.length r) items
      | _ => Raise ValueError
      end
  end.

(** [a[:, j]] of a two-dimensional array. *)
Definition column (a : array2d) (j : nat) : result (list float) :=
  match a with
  | [] => Ok []
  | r :: _ =>
      if (j <? List.length r)%nat
      then Ok (map (fun row => nth j row 0) a)
      else Raise IndexError
  end.

(** *** Protocol objects after [prepare] *)

Record Protocol : Type := mkProtocol {
  cycles : array2d;
  Dt_delay : option float;
  Dt_total : float;
  nPulses : nat;
  pulses : array2d;
  Dt_delays : list float;
  Dt_ons : list float;
  Dt_offs : list float;
  phis : list float;
  nPhis : nat;
  Vs : list float;
  nVs : nat;
  phi_ts : option (list (list (list (float -> float))))
}.

(** Lines 80-91 of [Protocol.prepare]. *)
Definition normalize_cycles (self : RawProtocol) : result pending :=
  let c := raw_cycles self in
  if isscalar c then
    (* Only 'on' duration specified *)
    let* Dt_off :=
      (if hasattr_Dt_total self then
         match c, raw_Dt_total self, raw_Dt_delay self with
         | CyNum Dt_on, Some total, Some delay => Ok (total - Dt_on - delay)
         | _, _, _ => Raise TypeError
         end
       else Ok 0) in
    match c with
    | CyNum Dt_on => Ok (PArr [[Dt_on; Dt_off]])
    | _ => Raise TypeError
    end
  else if is_sequence c then
    match c with
    | CySeq k items =>
        let* first := getitem items 0 in
        if item_isscalar first then Ok (PWrapped k items)  (* only one pulse *)
        else Ok (PSeq k items)
    | _ => Raise TypeError
    end
  else Raise TypeError.

(** Lines 80-93: [self.cycles] as a 2-D array. *)
Definition cycles_array (self : RawProtocol) : result array2d :=
  let* c := normalize_cycles self in
  asarray c.

(** The signature the calls of [cycles2times] expect: the pulse times and
    the total duration of an array of cycles after a delay. *)
Definition cycles2times_type : Type :=
  array2d -> option float -> result (array2d * float).

Section Prepare.

(** CPython's [list.sort(reverse=True)] on a list of floats. *)
Variable sort_reverse : list float -> list float.

(** The [extraPrep] of the object's class: [pass] in [Protocol], and
    overridden in the protocol classes. *)
Variable extraPrep : Protocol -> result Protocol.

(** Lines 100-102 and 105-107: a scalar becomes a one-element list and a
    list is sorted in place; [None] and a tuple have no [sort], and the
    [sort] of an array takes no [reverse]. *)
Definition sorted_values (v : numarg) : result (list float) :=
  match v with
  | NoArg => Raise AttributeError
  | Num x => Ok (sort_reverse [x])
  | Nums l => Ok (sort_reverse l)
  | NumsTuple _ => Raise AttributeError
  | NumsArray _ => Raise TypeError
  end.

(** Lines 94-111, on the array of lines 80-93. *)
Definition prepare_tail (self : RawProtocol) (cycles : array2d)
  : result Protocol :=
  let nPulses := List.length cycles in
  let* cycles2times := unbound cycles2times_type "cycles2times" in
  let* '(pulses, Dt_total) := cycles2times cycles (raw_Dt_delay self) in
  let* Dt_delays := map_result (fun pulse => getitem pulse 0) pulses in
  let* Dt_ons := column cycles 0 in
  let* Dt_offs := column cycles 1 in
  let* phis := sorted_values (raw_phis self) in
  let* Vs := sorted_values (raw_Vs self) in
  extraPrep (mkProtocol cycles (raw_Dt_delay self) Dt_total nPulses pulses
               Dt_delays Dt_ons Dt_offs phis (List.length phis)
               Vs (List.length Vs) None).

(** [Protocol.prepare] *)
Definition prepare (self : RawProtocol) : result Protocol :=
  let* cycles := cycles_array self in
  prepare_tail self cycles.

End Prepare.

(** The values of [cycles] that lines 80-93 are written for: a number
    (with a total duration and a delay to take the off period from), one
    on/off pair of numbers, or a non-empty sequence of on/off pairs. *)
Definition is_pair (it : item) : bool :=
  match it with
  | IRow _ [_; _] => true
  | _ => false
  end.

Definition has_number (v : option float) : bool :=
  match v with
  | Some _ => true
  | None => false
  end.

Definition cycles_accepted (self : RawProtocol) : bool :=
  match raw_cycles self with
  | CyNum _ => has_number (raw_Dt_total self) && has_number (raw_Dt_delay self)
  | CySeq _ [IScalar _; IScalar _] => true
  | CySeq _ (it :: items) => forallb is_pair (it :: items)
  | _ => false
  end.

(** *** getStimArray *)

(** [Protocol.getRunCycles]; [protShortPulse] and [protRecovery] override
    it, so [getStimArray] takes the method of the object's class.  The
    delay it returns is a Python number or [None], as in [Protocol]; a
    delay that is a numpy scalar (the two overrides compute theirs with
    numpy) divides without raising and is not covered. *)
Definition getRunCycles (self : Protocol) (run : nat)
  : result (array2d * option float) :=
  Ok (cycles self, Dt_delay self).

(** The loop [for p in range(nPulses)] of [getStimArray]; [cycles] is a
    numpy array, so the division by [dt] is numpy's and does not raise. *)
Fixpoint pulse_samples (cycles : array2d) (phi_ts : list (float -> float))
    (dt : float) (p n : nat) (t_end : float) (phi_tV : list float)
  : result (list float) :=
  match n with
  | O => Ok phi_tV
  | S n' =>
      let start := t_end in
      let* row := getitem cycles p in
      let* Dt_on := getitem row 0 in
      let* Dt_off := getitem row 1 in
      let t_end := start + Dt_on + Dt_off in
      let* nSteps := round ((t_end - start) / dt + 1) in
      let* tPulse := linspace start t_end nSteps in
      let* phi_t := getitem phi_ts p in
      let phiPulse := map phi_t tPulse in
      pulse_samples cycles phi_ts dt (S p) n' t_end (phi_tV ++ tl phiPulse)
  end.

Definition getStimArray
    (getRunCycles : Protocol -> nat -> result (array2d * option float))
    (self : Protocol) (run phiInd : nat) (dt : float) : result (list float) :=
  let* '(cycles, Dt_delay) := getRunCycles self run in
  let* by_run := (match phi_ts self with
                  | Some a => Ok a
                  | None => Raise TypeError
                  end) in
  let* by_phi := getitem by_run run in
  let* phi_ts := getitem by_phi phiInd in
  let nPulses := List.length cycles in
  if negb (List.length phi_ts =? nPulses)%nat then Raise AssertionError
  else
    let* t_end := number Dt_delay in
    let* q := truediv (t_end - 0) dt in
    let* nSteps := round (q + 1) in
    let* t := linspace 0 t_end nSteps in
    let phi_tV := map (fun _ => 0) t in
    let* phi_tV := pulse_samples cycles phi_ts dt 0 nPulses t_end phi_tV in
    (* Safeguard for negative phi values *)
    Ok (clamp_negative phi_tV).

(** *** protSinusoid.genPulse *)

(** The numeric libraries behind the waveforms: [np.cos] on one element
    and [InterpolatedUnivariateSpline(x, y, k=..., ext=...)]. *)
Record NumLib : Type := mkNumLib {
  np_cos : float -> float;
  spline : list float -> list float -> Z -> Z -> result (float -> float)
}.

(** What scipy documents of the spline constructor: the function it
    returns passes through all the points it was given. *)
Definition interpolating (lib : NumLib) : Prop :=
  forall xs ys k ext f,
    spline lib xs ys k ext = Ok f ->
    forall i x y,
      nth_error xs i = Some x -> nth_error ys i = Some y -> f x = y.

(** The attributes of a [protSinusoid] object that [genPulse] reads, as
    [extraPrep] sets them. *)
Record Sinusoid : Type := mkSinusoid {
  startOn : bool;
  phi0 : list float;
  ws : list float;     (* Frequencies [rads/ms] *)
  sr : Z               (* sampling rate *)
}.

(** The time points [t] of [genPulse], relative to the start of the pulse. *)
Definition sample_times (self : Sinusoid) (pulse : float * float)
  : result (list float) :=
  let '(pStart, pEnd) := pulse in
  let Dt_on := pEnd - pStart in
  let* n := round (Dt_on * of_Z (sr self) / 1000) in
  linspace 0.0 Dt_on (n + 1).

Definition genPulse (lib : NumLib) (self : Sinusoid) (run : nat)
    (phi : float) (pulse : float * float) : result (float -> float) :=
  let '(pStart, pEnd) := pulse in
  let* t := sample_times self pulse in
  if startOn self then
    let x := map (fun ti => pStart + ti) t in
    let* p0 := getitem (phi0 self) run in
    let* w := getitem (ws self) run in
    let y := map (fun ti => p0 + 0.5 * phi * (1 + np_cos lib (w * ti))) t in
    spline lib x y 5 1
  else
    let x := map (fun ti => pStart + ti) t in
    let* p0 := getitem (phi0 self) run in
    let* w := getitem (ws self) run in
    let y := map (fun ti => p0 + 0.5 * phi * (1 - np_cos lib (w * ti))) t in
    spline lib x y 5 1.

(** *** protDelta.finish *)

(** The photocurrent and the opsin model, as far as [finish] reads them. *)
Record PhotoCurrent : Type := mkPC {
  V : option float;
  I_peak_ : float
}.

Record RhodopsinModel : Type := mkRhO {
  E : float
}.

Definition msg_reversal : string :=
  "The clamp voltage must be different to the reversal potential!".

(** Lines 839-841 of [protDelta.finish], with the local [Gmax] bound or
    not: what is printed and how it ends.  [config] (read for
    [config.verbose]) and [round_sig] are bound nowhere in the module. *)
Definition report_gbar (out : list string) (Gmax : option float)
  : list string * result unit :=
  match Gmax with
  | None => (out, Raise (UnboundLocalError "Gmax"))
  | Some g =>
      let gbar_est := g * 1e6 in
      match unbound Z "config" with
      | Ok verbose =>
          if (verbose >? 0)%Z then
            match unbound (float -> string) "round_sig" with
            | Ok round_sig => (out ++ [round_sig gbar_est], Ok tt)
            | Raise e => (out, Raise e)
            end
          else (out, Ok tt)
      | Raise e => (out, Raise e)
      end
  end.

(** [protDelta.finish]: what it prints and how it ends. *)
Definition finish (PC : PhotoCurrent) (RhO : RhodopsinModel)
  : list string * result unit :=
  match V PC with
  | None => ([], Ok tt)
  | Some v =>
      match truediv (I_peak_ PC) (v - E RhO) with
      | Ok Gmax => report_gbar [] (Some Gmax)
      | Raise ZeroDivisionError => report_gbar [msg_reversal] None
      | Raise e => ([], Raise e)
      end
  end.

(** *** The registry and selectProtocol *)

Inductive ProtClass : Type :=
| protStep | protDelta | protSinusoid | protChirp
| protRamp | protRecovery | protShortPulse | protCustom.

(** The [protocols] OrderedDict, lines 1096-1103. *)
Definition protocols : list (string * ProtClass) :=
  [("step", protStep); ("delta", protDelta); ("sinusoid", protSinusoid);
   ("chirp", protChirp); ("ramp", protRamp); ("recovery", protRecovery);
   ("shortPulse", protShortPulse); ("custom", protCustom)]%string.

Section Select.

(** Parameter sets; [bool(params)] is false for an empty set. *)
Variable Params : Type.
Variable nonempty : Params -> bool.

(** What [__init__] makes of a parameter set for an object of a class
    ([setParams] of the base class [PyRhOobject], then [prepare]). *)
Variable State : Type.
Variable init : ProtClass -> Params -> result State.

Record Instance : Type := mkInstance {
  inst_class : ProtClass;
  inst_state : State
}.

(** [cls(params)] *)
Definition new (cls : ProtClass) (params : Params) : result Instance :=
  let* st := init cls params in
  Ok (mkInstance cls st).

(** [selectProtocol]; [protList] and [protParams] are bound nowhere in
    the module. *)
Definition selectProtocol (protocol : string) (params : option Params)
  : result Instance :=
  let* protList := unbound (list string) "protList" in
  if existsb (String.eqb protocol) protList then    (* protocol in protList *)
    let* cls := dict_get protocols protocol in
    match params with
    | Some p =>
        if nonempty p then new cls p                 (* if params: *)
        else
          let* protParams := unbound (list (string * Params)) "protParams" in
          let* p := dict_get protParams protocol in new cls p
    | None =>
        let* protParams := unbound (list (string * Params)) "protParams" in
        let* p := dict_get protParams protocol in new cls p
    end
  else Raise (NotImplementedError protocol).

End Select.

End Protocols.

(** ** opsin/protocols.py: the other methods *)

Module ProtocolsMore.

Import PyFloat Protocols.
Open Scope float_scope.

(** *** Class attributes *)

(** The class attribute [protocol] of each protocol class. *)
Definition class_protocol (cls : ProtClass) : string :=
  match cls with
  | protCustom => "custom"
  | protStep => "step"
  | protSinusoid => "sinusoid"
  | protChirp => "chirp"
  | protRamp => "ramp"
  | protDelta => "delta"
  | protShortPulse => "shortPulse"
  | protRecovery => "recovery"
  end.

(** The class attribute [squarePulse]. *)
Definition squarePulse (cls : ProtClass) : bool :=
  match cls with
  | protStep | protDelta | protShortPulse | protRecovery => true
  | protCustom | protSinusoid | protChirp | protRamp => false
  end.

(** *** Iteration over the runs *)

(** What [__next__] does: a pulse sequence, StopIteration, or the
    exception of [getRunCycles]. *)
Inductive next_result : Type :=
| Yield (v : array2d * option float)
| StopIteration
| Fail (e : exn).

(** [Protocol.__iter__] sets [self.run = 0]. *)
Definition iter_start : nat := 0%nat.

(** [Protocol.__next__] on an object with [nRuns] runs whose counter is
    [run]: the new counter and the outcome. *)
Definition next
    (getRunCycles : Protocol -> nat -> result (array2d * option float))
    (self : Protocol) (nRuns run : nat) : nat * next_result :=
  let run := (run + 1)%nat in
  if (nRuns <? run)%nat then (run, StopIteration)
  else (run, match getRunCycles self (run - 1)%nat with
             | Ok v => Yield v
             | Raise e => Fail e
             end).

(** [list(prot)]: [__next__] until StopIteration, at most [fuel] times. *)
Fixpoint drain
    (getRunCycles : Protocol -> nat -> result (array2d * option float))
    (self : Protocol) (nRuns : nat) (fuel run : nat)
  : result (list (array2d * option float)) :=
  match fuel with
  | O => Ok []
  | S fuel' =>
      match next getRunCycles self nRuns run with
      | (_, StopIteration) => Ok []
      | (_, Fail e) => Raise e
      | (run', Yield v) =>
          let* rest := drain getRunCycles self nRuns fuel' run' in
          Ok (v :: rest)
      end
  end.

(** *** Square and ramp pulses *)

(** [pStart, pEnd = pulse] on a row of the pulse array. *)
Definition unpack2 (pulse : list float) : result (float * float) :=
  match pulse with
  | [pStart; pEnd] => Ok (pStart, pEnd)
  | _ => Raise ValueError
  end.

(** [Protocol.genPulse], the default interpolation function for square
    pulses. *)
Definition genPulse_square (lib : NumLib) (run : nat) (phi : float)
    (pulse : list float) : result (float -> float) :=
  let* '(pStart, pEnd) := unpack2 pulse in
  spline lib [pStart; pEnd] [phi; phi] 1 1.

(** [protRamp.genPulse]; [phi0] is the offset of the ramp. *)
Definition genPulse_ramp (lib : NumLib) (phi0 : float) (run : nat)
    (phi : float) (pulse : list float) : result (float -> float) :=
  let* '(pStart, pEnd) := unpack2 pulse in
  spline lib [pStart; pEnd] [phi0; phi0 + phi] 1 1.

(** *** getShortestPeriod *)

(** [np.minimum] on two numbers: NaN wins. *)
Definition np_minimum (a b : float) : float :=
  if is_nan a then a
  else if is_nan b then b
  else if b <? a then b else a.

(** [np.amin] of a 1-D array; an empty array has no minimum. *)
Definition amin (l : list float) : result float :=
  match l with
  | [] => Raise ValueError
  | x :: tl => Ok (fold_left np_minimum tl x)
  end.

(** [a[a.nonzero()]]: the entries that are not zero, row by row. *)
Definition nonzero_entries (a : array2d) : list float :=
  filter (fun x => negb (x =? 0)) (List.concat a).

(** [Protocol.getShortestPeriod] *)
Definition getShortestPeriod (self : Protocol) : result float :=
  amin (nonzero_entries (cycles self)).

(** *** genPulseSet *)

Definition waveform : Type := float -> float.

(** The nested list [phi_ts[run][phiInd][pInd]]; an entry is [None] until
    its waveform is assigned. *)
Definition cube : Type := list (list (list (option waveform))).

(** [phi_ts[run][phiInd][pInd] = v] *)
Definition assign3 (c : cube) (run phiInd pInd : nat) (v : waveform)
  : result cube :=
  let* plane := getitem c run in
  let* row := getitem plane phiInd in
  let* row := setitem row pInd (Some v) in
  let* plane := setitem plane phiInd row in
  setitem c run plane.

(** [for pInd, pulse in enumerate(pulses)] *)
Fixpoint pulse_loop (genPulse : nat -> float -> list float -> result waveform)
    (run phiInd : nat) (phi : float) (pulses : array2d) (pInd : nat)
    (c : cube) : result cube :=
  match pulses with
  | [] => Ok c
  | pulse :: rest =>
      let* f := genPulse run phi pulse in
      let* c := assign3 c run phiInd pInd f in
      pulse_loop genPulse run phiInd phi rest (S pInd) c
  end.

(** [for phiInd, phi in enumerate(self.phis)] *)
Fixpoint phi_loop (genPulse : nat -> float -> list float -> result waveform)
    (run : nat) (pulses : array2d) (phis : list float) (phiInd : nat)
    (c : cube) : result cube :=
  match phis with
  | [] => Ok c
  | phi :: rest =>
      let* c := pulse_loop genPulse run phiInd phi pulses 0 c in
      phi_loop genPulse run pulses rest (S phiInd) c
  end.

(** [for run in range(self.nRuns)] *)
Fixpoint run_loop
    (getRunCycles : Protocol -> nat -> result (array2d * option float))
    (genPulse : nat -> float -> list float -> result waveform)
    (self : Protocol) (runs : list nat) (c : cube) : result cube :=
  match runs with
  | [] => Ok c
  | run :: rest =>
      let* '(cycles, Dt_delay) := getRunCycles self run in
      let* cycles2times := unbound cycles2times_type "cycles2times" in
      let* '(pulses, Dt_total) := cycles2times cycles Dt_delay in
      let* c := phi_loop genPulse run pulses (phis self) 0 c in
      run_loop getRunCycles genPulse self rest c
  end.

(** [Protocol.genPulseSet] for an object with [nRuns] runs, with the
    [getRunCycles] of its class and the pulse generator it is given (or
    its own [genPulse]); the nested list it returns and stores in
    [self.phi_ts]. *)
Definition genPulseSet
    (getRunCycles : Protocol -> nat -> result (array2d * option float))
    (genPulse : nat -> float -> list float -> result waveform)
    (self : Protocol) (nRuns : nat) : result cube :=
  let phi_ts :=
    repeat (repeat (repeat None (nPulses self)) (nPhis self)) nRuns in
  run_loop getRunCycles genPulse self (seq 0 nRuns) phi_ts.

(** *** protDelta.prepare *)

Section Delta.

(** CPython's [list.sort(reverse=True)] on a list of floats. *)
Variable sort_reverse : list float -> list float.

(** Lines 809-811 and 814-816 of [protDelta.prepare]: a list is sorted in
    place; a scalar becomes a numpy array, whose [sort] takes no [reverse]
    argument, like that of an array given as such; [None] and a tuple have
    no [sort]. *)
Definition sorted_values_delta (v : numarg) : result (list float) :=
  match v with
  | NoArg => Raise AttributeError
  | Num _ => Raise TypeError
  | Nums l => Ok (sort_reverse l)
  | NumsTuple _ => Raise AttributeError
  | NumsArray _ => Raise TypeError
  end.

(** [np.append(pulses[1:, 0], Dt_total) - pulses[:, 1]]; the two arrays
    have one entry per pulse. *)
Fixpoint subtract (a b : list float) : result (list float) :=
  match a, b with
  | [], [] => Ok []
  | x :: a', y :: b' => let* r := subtract a' b' in Ok (x - y :: r)
  | _, _ => Raise ValueError
  end.

(** [protDelta.prepare] with its [extraPrep], on an object whose class
    attribute [Dt_on] is [Dt_on]: the prepared object and the waveforms
    [extraPrep] stores in [phi_ts].  [cycles2times] and [config] (read
    for [config.addStimulus], a plotting flag) are bound nowhere in the
    module. *)
Definition prepare_delta (lib : NumLib) (Dt_on : float) (self : RawProtocol)
  : result (Protocol * cube) :=
  let* total := number (raw_Dt_total self) in
  let* delay := number (raw_Dt_delay self) in
  if negb (delay + Dt_on <=? total) then Raise AssertionError
  else
    let cycles := [[Dt_on; total - delay - Dt_on]] in
    let nPulses := List.length cycles in
    let* cycles2times := unbound cycles2times_type "cycles2times" in
    let* '(pulses, Dt_total) := cycles2times cycles (raw_Dt_delay self) in
    let* Dt_delays := map_result (fun row => getitem row 0) pulses in
    let* Dt_ons :=
      map_result (fun row => let* b := getitem row 1 in
                             let* a := getitem row 0 in
                             Ok (b - a)) pulses in
    let* starts := column (tl pulses) 0 in
    let* ends := column pulses 1 in
    let* Dt_offs := subtract (starts ++ [Dt_total]) ends in
    let* phis := sorted_values_delta (raw_phis self) in
    let* Vs := sorted_values_delta (raw_Vs self) in
    let* addStimulus := unbound bool "config" in
    let p := mkProtocol cycles (raw_Dt_delay self) Dt_total nPulses pulses
               Dt_delays Dt_ons Dt_offs phis (List.length phis)
               Vs (List.length Vs) None in
    (* extraPrep: self.nRuns = 1; self.phi_ts = self.genPulseSet() *)
    let* phi_ts := genPulseSet getRunCycles (genPulse_square lib) p 1 in
    Ok (p, phi_ts).

End Delta.

End ProtocolsMore.

(** ** lfp.py: the geometry the host keeps *)

Module LfpShape.

Import Lfp.

(** A cell after [sec.insert("extracellular")] on each of its sections. *)
Definition inserted (c : Cell) : Cell :=
  mkCell (is_art c) (is_reduced c) (soma_list c)
         (map insert_extracellular (all c)).

(** What the loops of lfp.py count on a section: [sec.nseg] and the number
    of segments [for seg in sec] yields. *)
Definition sec_shape (sec : Sec) : nat * nat :=
  (nseg sec, List.length (segs sec)).

(** The sections of the cell of a gid, by their counts. *)
Definition shape (host : Host) (gid : Z) : option (list (nat * nat)) :=
  option_map (fun c => map sec_shape (all c)) (host gid).

(** A host on which [for seg in sec] yields at most [sec.nseg] segments
    (NEURON yields exactly [nseg]). *)
Definition segments_counted (host : Host) : Prop :=
  forall gid szs, shape host gid = Some szs ->
                  Forall (fun p => (snd p <= fst p)%nat) szs.

(** The tables of one population fit a host: one type and one Vector per
    recorded gid, every recorded gid owned, every type 1 or 2, and each
    Vector long enough for every section of its cell. *)
Definition tables_fit (sh : Z -> option (list (nat * nat)))
    (ids types : list Z) (coeffs : list (list float)) : Prop :=
  List.length types = List.length ids
  /\ List.length coeffs = List.length ids
  /\ Forall (fun ty => ty = 1%Z \/ ty = 2%Z) types
  /\ forall i gid vec,
       nth_error ids i = Some gid -> nth_error coeffs i = Some vec ->
       exists szs, sh gid = Some szs
                   /\ Forall (fun p => (snd p <= List.length vec)%nat) szs.

(** Every population of [pops] has its three tables, and they fit. *)
Definition object_fits (sh : Z -> option (list (nat * nat)))
    (self : LFP) (pops : list string) : Prop :=
  forall pop, In pop pops ->
    exists ids types coeffs,
      dict_get (lfp_ids self) pop = Ok ids
      /\ dict_get (lfp_types self) pop = Ok types
      /\ dict_get (lfp_coeffs self) pop = Ok coeffs
      /\ tables_fit sh ids types coeffs.

(** The cell of a gid is there and all its sections carry the
    extracellular mechanism. *)
Definition marked (host : Host) (gid : Z) : Prop :=
  exists c, host gid = Some c
            /\ Forall (fun sec => extracellular sec = true) (all c).

End LfpShape.

(** * Concrete inputs *)

Module LfpExamples.

Import PyFloat Lfp.
Open Scope float_scope.

(** A stand-in for the C library's logarithm. *)
Definition toy_log (x : float) : float := x - 1.

(** Piecewise-linear interpolation, standing in for hoc's
    [Vector.interpolate]. *)
Fixpoint lin_at (xs ys : list float) (x : float) : float :=
  match xs, ys with
  | x0 :: ((x1 :: _) as xs'), y0 :: ((y1 :: _) as ys') =>
      if x <=? x0 then y0
      else if x <=? x1 then y0 + (y1 - y0) * ((x - x0) / (x1 - x0))
      else lin_at xs' ys' x
  | _, y0 :: _ => y0
  | _, _ => 0
  end.

Definition toy_interpolate (xd xs ys : list float) : list float :=
  map (lin_at xs ys) xd.

(** A stand-in for the uniform stream of [h.Random(seed)]. *)
Definition toy_ran (seed : Z) (n : nat) : float :=
  of_Z ((seed * 37 + Z.of_nat n * 61) mod 100) / 100.


(** A section without 3-D points. *)
Definition sec_flat : Sec := mkSec 1 0 [] true [mkSeg 2 0].



(** A two-section cell standing at [x0] on the x axis. *)
Definition soma (x0 : float) : Sec :=
  mkSec 1 10 [mkPt3d x0 0 (-10) 0; mkPt3d x0 0 0 10] false [mkSeg 5 1].

Definition dend (x0 : float) : Sec :=
  mkSec 2 20 [mkPt3d x0 0 0 0; mkPt3d x0 0 20 20] false
        [mkSeg 3 0.5; mkSeg 3 (-0.25)].

Definition pyr (x0 : float) : Cell :=
  mkCell None None (Some [soma x0]) [soma x0; dend x0].

(** An artificial cell. *)
Definition stim : Cell := mkCell (Some 1) None None [].

(** This process owns gids 1, 2, 3 and 5. *)
Definition host0 : Host := fun gid =>
  match gid with
  | 1%Z => Some (pyr 10)
  | 2%Z => Some (pyr 500)
  | 3%Z => Some stim
  | 5%Z => Some (pyr 700)
  | _ => None
  end.

Definition pops0 : list (string * list Z) :=
  [("PYR"%string, [1; 2; 4; 5]%Z); ("STIM"%string, [3]%Z)].

(** An electrode at the origin that samples half of the distant cells. *)
Definition lfp1 : LFP :=
  mkLFP "lfp" 0.5 1 (0, 0, 0) 100 333 0.5 [] [] [] [] [] pops0.


End LfpExamples.

Module ProtocolExamples.

Import PyFloat Protocols.
Open Scope float_scope.

(** One cycle of 100 ms on and 50 ms off after a delay of 25 ms. *)
Definition raw_single : RawProtocol :=
  mkRaw (CySeq KList [IRow KList [100; 50]]) (Some 25) None
        (Nums [1e15; 1e16]) (Num (-70)).

(** The same protocol with an empty list of cycles. *)
Definition raw_empty : RawProtocol :=
  mkRaw (CySeq KList []) (Some 25) (Some 175) (Nums [1e15; 1e16]) (Num (-70)).

(** Only the on duration given. *)
Definition raw_scalar : RawProtocol :=
  mkRaw (CyNum 100) (Some 25) (Some 175) (Num 1e16) (Num (-70)).

(** A photocurrent clamped at the reversal potential of the model. *)
Definition PC_at_reversal : PhotoCurrent := mkPC (Some 0) (-1.5).
Definition RhO0 : RhodopsinModel := mkRhO 0.

(** A table look-up standing in for the spline: defined on distinct
    abscissae, more of them than the degree, zero off the table. *)
Fixpoint lookup (xs ys : list float) (x : float) : float :=
  match xs, ys with
  | x0 :: xs', y0 :: ys' =>
      if Leibniz.eqb x0 x then y0 else lookup xs' ys' x
  | _, _ => 0
  end.

Fixpoint distinct (xs : list float) : bool :=
  match xs with
  | [] => true
  | x :: tl => negb (existsb (Leibniz.eqb x) tl) && distinct tl
  end.

Definition toy_spline (xs ys : list float) (k ext : Z)
  : result (float -> float) :=
  if (k <? Z.of_nat (List.length xs))%Z
     && (List.length xs =? List.length ys)%nat
     && distinct xs
  then Ok (lookup xs ys)
  else Raise ValueError.

(** The first terms of the cosine series, standing in for [np.cos]. *)
Definition toy_cos (x : float) : float := 1 - x * x / 2 + x * x * x * x / 24.

Definition toy_lib : NumLib := mkNumLib toy_cos toy_spline.

(** One run at 50 Hz, sampled at 10 kHz. *)
Definition sin50 : Sinusoid :=
  mkSinusoid false [0] [2 * pi * 50 / 1000] 10000.

(** A prepared protocol with one 10 ms pulse after a 5 ms delay, whose
    waveform falls below zero from 12 ms on. *)
Definition falling : Protocol :=
  mkProtocol [[10; 5]] (Some 5) 20 1 [[5; 15]] [5] [10] [5] [1] 1 [-70] 1
             (Some [[[fun t => 12 - t]]]).

(** The same protocol with a waveform that is 0/0 at every time. *)
Definition undefined_wave : Protocol :=
  mkProtocol [[10; 5]] (Some 5) 20 1 [[5; 15]] [5] [10] [5] [1] 1 [-70] 1
             (Some [[[fun t => (t - t) / (t - t)]]]).

(** A stand-in for [list.sort(reverse=True)]: insertion in descending
    order. *)
Fixpoint toy_insert (x : float) (l : list float) : list float :=
  match l with
  | [] => [x]
  | y :: tl => if x <? y then y :: toy_insert x tl else x :: l
  end.

Definition toy_sort (l : list float) : list float :=
  fold_right toy_insert [] l.

(** Parameter sets as lists of named numbers. *)
Definition toy_params : Type := list (string * float).

Definition toy_nonempty (p : toy_params) : bool :=
  match p with
  | [] => false
  | _ => true
  end.

Definition toy_init (cls : ProtClass) (p : toy_params) : result toy_params :=
  Ok p.

End ProtocolExamples.

(** * Properties *)

(** Splits a successful chain of binds at its first computation. *)
Ltac bind_ok H :=
  match type of H with
  | bind ?c _ = Ok _ =>
      let E := fresh "E" in
      destruct c eqn:E; simpl in H; [| discriminate H]
  end.

(** ** Facts on binary64 values *)

Module FloatFacts.

Import PyFloat.
Open Scope float_scope.

Lemma NNs_round_aux m e l : NNs (binary_round_aux prec emax false m e l).
Proof.
  unfold binary_round_aux.
  destruct (shr_fexp prec emax m e l) as [mrs' e'].
  destruct (shr_fexp prec emax _ e' loc_Exact) as [mrs'' e''].
  destruct (shr_m mrs''); simpl; auto.
  all: destruct (_ <=? _)%Z; simpl; auto.
Qed.

Lemma NNs_mul_self s : NNs (SF64mul s s).
Proof.
  destruct s as [[]|[]| |[] m e]; simpl; auto; apply NNs_round_aux.
Qed.

Lemma NNs_add x y : NNs x -> NNs y -> NNs (SF64add x y).
Proof.
  destruct x as [sx|sx| |sx mx ex], y as [sy|sy| |sy my ey]; simpl;
    intros Hx Hy; subst; simpl; auto.
  unfold binary_normalize, binary_round.
  destruct (shl_align _ _ _). apply NNs_round_aux.
Qed.

Lemma NNs_not_neg x : NNs (Prim2SF x) -> (x <? 0) = false.
Proof.
  rewrite ltb_spec. change (Prim2SF 0) with (S754_zero false).
  destruct (Prim2SF x) as [s|s| |s m e]; simpl; intros; subst; auto.
Qed.

(** A sum of three squares is never negative. *)
Lemma sumsq3_not_neg a b c : (a * a + b * b + c * c <? 0) = false.
Proof.
  apply NNs_not_neg. rewrite !add_spec, !mul_spec.
  repeat apply NNs_add; apply NNs_mul_self.
Qed.

Lemma sumsq2_not_neg a b : (a * a + b * b <? 0) = false.
Proof.
  apply NNs_not_neg. rewrite !add_spec, !mul_spec.
  repeat apply NNs_add; apply NNs_mul_self.
Qed.

(** The values that compare equal to zero are the two zeros. *)
Lemma eqb_zero l : (l =? 0) = true -> l = 0 \/ l = (- 0).
Proof.
  rewrite eqb_spec. change (Prim2SF 0) with (S754_zero false).
  intros H. rewrite <- (SF2Prim_Prim2SF l).
  destruct (Prim2SF l) as [[]|s| |s m e]; simpl in H; try discriminate.
  - right; reflexivity.
  - left; reflexivity.
  - destruct s; discriminate.
  - destruct s; discriminate.
Qed.

Lemma SFcompare_antisym x y :
  SFcompare y x = option_map CompOpp (SFcompare x y).
Proof.
  destruct x as [sx|sx| |sx mx ex], y as [sy|sy| |sy my ey]; simpl; auto;
    try (destruct sx; reflexivity); try (destruct sy; reflexivity);
    try (destruct sx, sy; reflexivity).
  change (PosDef.Pos.compare_cont Eq my mx) with (Pos.compare my mx).
  change (PosDef.Pos.compare_cont Eq mx my) with (Pos.compare mx my).
  rewrite (Z.compare_antisym ex ey), (Pos.compare_antisym mx my).
  destruct sx, sy; simpl; auto;
    destruct (ex ?= ey)%Z; simpl; auto;
    destruct (mx ?= my)%positive; reflexivity.
Qed.


(** A value that is neither NaN nor below zero is at least zero. *)
Lemma not_ltb_zero_leb x :
  is_nan x = false -> (x <? 0) = false -> (0 <=? x) = true.
Proof.
  unfold is_nan. rewrite eqb_spec, ltb_spec, leb_spec.
  change (Prim2SF 0) with (S754_zero false).
  unfold SFeqb, SFltb, SFleb.
  destruct (Prim2SF x) as [s|s| |s m e]; simpl; auto; try discriminate;
    destruct s; simpl; auto; discriminate.
Qed.

(** *** Values that cannot be zero *)



















End FloatFacts.

(** ** lfp.py: coefficients *)

Module LfpFacts.

Import PyFloat Lfp FloatFacts.
Open Scope float_scope.

Section Coefficients.

Variable libm_log : float -> float.

Lemma zero_length_divisor l : (l =? 0) = true -> (4.0 * pi * l =? 0) = true.
Proof.
  intros H. destruct (eqb_zero l H) as [-> | ->]; vm_compute; reflexivity.
Qed.

Lemma math_sqrt_sumsq3 a b c :
  math_sqrt (a * a + b * b + c * c) = Ok (sqrt (a * a + b * b + c * c)).
Proof. unfold math_sqrt. now rewrite sumsq3_not_neg. Qed.

Lemma math_sqrt_sumsq2 a b :
  math_sqrt (a * a + b * b) = Ok (sqrt (a * a + b * b)).
Proof. unfold math_sqrt. now rewrite sumsq2_not_neg. Qed.

(** With a segment length that is a zero, the weight formula stops at
    [self.rho / (4.0 * math.pi * l)]. *)
Lemma line_source_zero_length self sec s0 s seg l :
  truediv (L sec) (of_nat (nseg sec)) = Ok l ->
  (l =? 0) = true ->
  line_source libm_log self sec s0 s seg = Raise ZeroDivisionError.
Proof.
  intros Hl Hz. unfold line_source.
  destruct (epoint self) as [[ex ey] ez], s0 as [[sx0 sy0] sz0],
    s as [[sx sy] sz].
  rewrite Hl. unfold bind at 1.
  rewrite !math_sqrt_sumsq3. unfold bind at 1. unfold bind at 1.
  unfold truediv at 1. rewrite (zero_length_divisor l Hz). reflexivity.
Qed.

Lemma base_coeff_zero_length self sec s0 s seg l :
  truediv (L sec) (of_nat (nseg sec)) = Ok l ->
  (l =? 0) = true ->
  base_coeff libm_log self sec s0 s seg = Raise ZeroDivisionError.
Proof.
  intros Hl Hz. unfold base_coeff.
  now rewrite (line_source_zero_length self sec s0 s seg l Hl Hz).
Qed.

(** The same at the loop that stores the coefficients: with nodes to read,
    the first segment of a zero-length compartment aborts [for seg in sec]
    and [vec] is never written. *)
Lemma seg_loop_zero_length self lfptype sec xi yi zi s0 seg rest j vec
    sx sy sz l :
  getitem xi j = Ok sx -> getitem yi j = Ok sy -> getitem zi j = Ok sz ->
  truediv (L sec) (of_nat (nseg sec)) = Ok l ->
  (l =? 0) = true ->
  seg_loop libm_log self lfptype sec xi yi zi s0 (seg :: rest) j vec
  = Raise ZeroDivisionError.
Proof.
  intros Hx Hy Hz Hl Hl0. simpl. rewrite Hx, Hy, Hz. simpl.
  unfold seg_coeff.
  now rewrite (base_coeff_zero_length self sec s0 (sx, sy, sz) seg l Hl Hl0).
Qed.

Lemma setitem_ok {A} (l : list A) i v l' :
  setitem l i v = Ok l' ->
  List.length l' = List.length l
  /\ nth_error l' i = Some v
  /\ (forall i', i' <> i -> nth_error l' i' = nth_error l i').
Proof.
  revert i l'. induction l as [| hd tl IH]; intros i l' H; simpl in H.
  - discriminate.
  - destruct i as [| i].
    + injection H as <-. repeat split; auto.
      intros [| i'] Hne; [contradiction | reflexivity].
    + destruct (setitem tl i v) as [tl' |] eqn:E; [| discriminate].
      injection H as <-. destruct (IH i tl' E) as [Hlen [Hat Hoff]].
      repeat split; simpl; auto.
      intros [| i'] Hne; simpl; auto.
Qed.







Section Sections.

Variable interpolate : list float -> list float -> list float -> list float.


End Sections.

End Coefficients.


(** ** lfp.py: selection of cells *)

Section Selection.


(** A gid this process does not own draws its sample and is passed over. *)
Lemma setup_gid_not_owned self host tabs gid ransample :
  host gid = None ->
  setup_gid self (host, tabs) gid ransample = Ok (host, tabs).
Proof.
  intros Hg. unfold setup_gid, gid_lfptype. now rewrite Hg.
Qed.

End Selection.


(** ** lfp.py: the sampled series *)

Section Samples.

Variable libm_log : float -> float.
Variable interpolate : list float -> list float -> list float -> list float.
Variable ranlfp : Z -> nat -> float.

Lemma setup_lfp_coeffs_loop_samples pops :
  forall self host self',
    setup_lfp_coeffs_loop libm_log interpolate self host pops = Ok self' ->
    meanlfp self' = meanlfp self /\ t self' = t self.
Proof.
  induction pops as [| pop_name rest IH]; simpl; intros self host self' H.
  - injection H as <-. auto.
  - repeat bind_ok H. apply IH in H. simpl in H. exact H.
Qed.

Lemma pop_loop_samples pops :
  forall self host ipop self' host',
    pop_loop ranlfp self host pops ipop = Ok (self', host') ->
    meanlfp self' = meanlfp self /\ t self' = t self.
Proof.
  induction pops as [| pop_name rest IH]; simpl; intros self host ipop self' host' H.
  - injection H as <- <-. auto.
  - repeat bind_ok H. destruct a0 as [host1 tabs].
    apply IH in H. simpl in H. exact H.
Qed.

Lemma setup_lfp_samples self host self' host' :
  setup_lfp libm_log interpolate ranlfp self host = Ok (self', host') ->
  meanlfp self' = meanlfp self /\ t self' = t self.
Proof.
  unfold setup_lfp, setup_lfp_coeffs. intros H.
  bind_ok H. destruct a as [self1 host1]. bind_ok H.
  injection H as <- <-.
  apply pop_loop_samples in E. apply setup_lfp_coeffs_loop_samples in E0.
  destruct E as [E1 E2], E0 as [E3 E4]. split; congruence.
Qed.

(** One invocation: nothing is appended off rank 0, one value to each
    list on rank 0. *)
Lemma sample_lfp_appends self tk self' ev :
  sample_lfp self tk = Ok (self', ev) ->
  if (tick_rank tk =? 0)%Z
  then exists m, meanlfp self' = meanlfp self ++ [m]
                 /\ t self' = t self ++ [tick_t tk]
  else meanlfp self' = meanlfp self /\ t self' = t self.
Proof.
  unfold sample_lfp. intros H. bind_ok H. injection H as <- _.
  destruct (tick_rank tk =? 0)%Z; simpl; eauto.
Qed.

Lemma sample_lfp_parallel self tk self' ev :
  sample_lfp self tk = Ok (self', ev) ->
  List.length (t self) = List.length (meanlfp self) ->
  List.length (t self') = List.length (meanlfp self').
Proof.
  intros H Hlen. apply sample_lfp_appends in H.
  destruct (tick_rank tk =? 0)%Z.
  - destruct H as [m [-> ->]]. rewrite !length_app. simpl. lia.
  - destruct H as [-> ->]. exact Hlen.
Qed.

Lemma run_samples_parallel tks :
  forall self,
    List.length (t self) = List.length (meanlfp self) ->
    List.length (t (run_samples self tks))
    = List.length (meanlfp (run_samples self tks)).
Proof.
  induction tks as [| tk rest IH]; simpl; intros self Hlen; auto.
  destruct (sample_lfp self tk) as [[self' ev] | e] eqn:E.
  - apply IH. eapply sample_lfp_parallel; eauto.
  - apply IH. exact Hlen.
Qed.

(** C9: [t] and [meanlfp] are empty in a constructed LFP object; an
    invocation of [sample_lfp] on the rank-0 process appends exactly one
    mean-LFP value and the time [h.t]; and after any series of invocations
    the two lists have the same length. *)
Theorem C9_parallel_series host label pop_gid_dict pos rho fdst maxEDist
    dt_lfp seed self host' :
  init libm_log interpolate ranlfp host label pop_gid_dict pos
       rho fdst maxEDist dt_lfp seed = Ok (self, host') ->
  (meanlfp self = [] /\ t self = [])
  /\ (forall s tk s' ev,
        sample_lfp s tk = Ok (s', ev) -> tick_rank tk = 0%Z ->
        exists m, meanlfp s' = meanlfp s ++ [m]
                  /\ t s' = t s ++ [tick_t tk])
  /\ (forall tks,
        List.length (t (run_samples self tks))
        = List.length (meanlfp (run_samples self tks))).
Proof.
  unfold init. intros H. apply setup_lfp_samples in H. simpl in H.
  destruct H as [Hm Ht]. repeat split; auto.
  - intros s tk s' ev Hs Hr. apply sample_lfp_appends in Hs.
    rewrite Hr in Hs. exact Hs.
  - intros tks. apply run_samples_parallel. now rewrite Hm, Ht.
Qed.

End Samples.

End LfpFacts.

(** ** opsin/protocols.py *)

Module ProtocolFacts.

Import PyFloat Protocols FloatFacts.
Open Scope float_scope.

(** *** protDelta.finish *)

(** C2 (as the code has it): with a clamp voltage that equals the reversal
    potential, [finish] catches the ZeroDivisionError and prints the
    diagnostic, but then reads the local [Gmax] that the failed assignment
    never bound: an UnboundLocalError leaves [finish]. *)
Theorem C2_finish_unbound_Gmax PC RhO v :
  V PC = Some v ->
  (v - E RhO =? 0) = true ->
  finish PC RhO = ([msg_reversal], Raise (UnboundLocalError "Gmax")).
Proof.
  intros HV Hz. unfold finish, truediv. rewrite HV, Hz. reflexivity.
Qed.

(** *** selectProtocol *)

Section SelectFacts.

Variable Params : Type.
Variable nonempty : Params -> bool.
Variable State : Type.
Variable init : ProtClass -> Params -> result State.

(** C3 (as the code has it): [selectProtocol] tests the name against
    [protList], which protocols.py neither imports nor defines: whatever
    the name and the parameters, the call ends in NameError at that test,
    so it neither raises NotImplementedError nor returns an instance. *)
Theorem C3_selectProtocol name params :
  selectProtocol Params nonempty State init name params
  = Raise (NameError "protList")
  /\ selectProtocol Params nonempty State init name params
     <> Raise (NotImplementedError name)
  /\ is_ok (selectProtocol Params nonempty State init name params) = false.
Proof.
  unfold selectProtocol, unbound. simpl.
  split; [reflexivity | split; [discriminate | reflexivity]].
Qed.

End SelectFacts.

(** *** Protocol.prepare *)

Section PrepareFacts.

Variable sort_reverse : list float -> list float.
Variable extraPrep : Protocol -> result Protocol.

(** Past line 93 [prepare] stops at the call of [cycles2times]. *)
Lemma prepare_tail_stops self a :
  prepare_tail sort_reverse extraPrep self a
  = Raise (NameError "cycles2times").
Proof. reflexivity. Qed.

(** C4 (as the code has it): for the single cycle [[Dt_on, Dt_off]],
    [Protocol.prepare] has the one-row array [[Dt_on, Dt_off]] in
    [cycles] when it reaches the cycle-to-pulse expansion, and there it
    calls [cycles2times], which protocols.py neither imports nor defines:
    it ends in NameError and sets neither [pulses] nor [Dt_total]. *)
Theorem C4_single_cycle k k' Dt_on Dt_off d total phis Vs :
  cycles_array (mkRaw (CySeq k [IRow k' [Dt_on; Dt_off]]) d total phis Vs)
  = Ok [[Dt_on; Dt_off]]
  /\ prepare sort_reverse extraPrep
       (mkRaw (CySeq k [IRow k' [Dt_on; Dt_off]]) d total phis Vs)
     = Raise (NameError "cycles2times").
Proof. split; reflexivity. Qed.

(** The first half of C8 takes in strings as well: [np.isscalar] counts a
    string as a scalar, and the subtraction on line 83 then fails. *)
Lemma prepare_string_cycles s d total phis Vs :
  prepare sort_reverse extraPrep (mkRaw (CyStr s) d total phis Vs)
  = Raise TypeError.
Proof. reflexivity. Qed.

Lemma as_rows_pairs items :
  forallb is_pair items = true ->
  exists rows,
    as_rows 2 items = Ok rows
    /\ List.length rows = List.length items
    /\ Forall (fun row => List.length row = 2%nat) rows.
Proof.
  induction items as [| it items IH]; simpl; intros H.
  - exists []. auto.
  - apply andb_prop in H. destruct H as [Hit Hrest].
    destruct (IH Hrest) as [rows [Hr [Hlen Hall]]].
    destruct it as [x | k r]; [discriminate |].
    destruct r as [| a [| b [| c r]]]; try discriminate.
    simpl. rewrite Hr. simpl. exists ([a; b] :: rows).
    repeat split; auto. simpl. now rewrite Hlen.
Qed.

(** Lines 80-93 on the values they are written for. *)
Lemma cycles_array_accepted self :
  cycles_accepted self = true ->
  exists a,
    cycles_array self = Ok a
    /\ a <> []
    /\ Forall (fun row => List.length row = 2%nat) a.
Proof.
  unfold cycles_accepted, cycles_array, normalize_cycles. intros Hc.
  destruct (raw_cycles self) as [| x | s | dct | k items] eqn:Hcy;
    try discriminate.
  - (* a number *)
    destruct (raw_Dt_total self) as [total |]; [| discriminate].
    destruct (raw_Dt_delay self) as [d |]; [| discriminate].
    exists [[x; total - x - d]]. simpl.
    split; [reflexivity | split; [discriminate | auto]].
  - destruct items as [| it items]; [discriminate |].
    destruct it as [a | k1 r1].
    + (* one pair of numbers *)
      destruct items as [| [b | k2 r2] [| it3 items]]; try discriminate.
      exists [[a; b]]. simpl.
      split; [reflexivity | split; [discriminate | auto]].
    + (* a sequence of pairs *)
      assert (Hall : forallb is_pair (IRow k1 r1 :: items) = true).
      { destruct r1 as [| a [| b [| c r1]]]; exact Hc. }
      destruct (as_rows_pairs _ Hall) as [rows [Hr [Hlen Hrows]]].
      assert (Hr1 : List.length r1 = 2%nat).
      { simpl in Hall. apply andb_prop in Hall. destruct Hall as [Hall _].
        destruct r1 as [| a [| b [| c r1]]]; try discriminate. reflexivity. }
      exists rows. split; [| split; [| exact Hrows]].
      * change (asarray (PSeq k (IRow k1 r1 :: items)) = Ok rows).
        unfold asarray. rewrite Hr1. exact Hr.
      * intros ->. discriminate Hlen.
Qed.

(** C8 (amended): a [cycles] value that is neither a scalar nor a list,
    tuple or array makes [Protocol.prepare] raise TypeError.  On a number
    (with the total duration and the delay set), on one on/off pair of
    numbers and on a non-empty sequence of on/off pairs, lines 80-93 do
    not raise and leave in [cycles] a 2-D array of on/off pairs, with
    which [prepare] goes on from line 94. *)
Theorem C8_prepare_cycles self :
  (isscalar (raw_cycles self) = false ->
   is_sequence (raw_cycles self) = false ->
   prepare sort_reverse extraPrep self = Raise TypeError)
  /\ (cycles_accepted self = true ->
      exists a,
        cycles_array self = Ok a
        /\ a <> []
        /\ Forall (fun row => List.length row = 2%nat) a
        /\ prepare sort_reverse extraPrep self
           = prepare_tail sort_reverse extraPrep self a).
Proof.
  split.
  - intros Hs Hq. unfold prepare, cycles_array, normalize_cycles.
    now rewrite Hs, Hq.
  - intros Hc.
    destruct (cycles_array_accepted self Hc) as [a [Ha [Hne Hrows]]].
    exists a. repeat (split; [assumption |]).
    unfold prepare. now rewrite Ha.
Qed.

End PrepareFacts.

(** *** Protocol.getStimArray *)

Lemma clamp_negative_spec a :
  Forall (fun v => (v <? 0) = false /\ (is_nan v = false -> (0 <=? v) = true))
         (clamp_negative a).
Proof.
  unfold clamp_negative. apply Forall_forall. intros v Hin.
  apply in_map_iff in Hin. destruct Hin as [u [<- _]].
  destruct (u <? 0) eqn:Hu.
  - split; reflexivity.
  - split; [exact Hu |]. intros Hn. now apply not_ltb_zero_leb.
Qed.

(** C10 (amended): whatever the run, the intensity index and the time
    step, no entry of the array [getStimArray] returns is negative, and
    every entry that is a number (not NaN) is at least 0: values below
    zero are replaced by 0 before the array is returned, and a NaN is
    left as it is. *)
Theorem C10_stim_not_negative getRC self run phiInd dt arr :
  getStimArray getRC self run phiInd dt = Ok arr ->
  Forall (fun v => (v <? 0) = false /\ (is_nan v = false -> (0 <=? v) = true))
         arr.
Proof.
  unfold getStimArray. intros H.
  bind_ok H. destruct a as [cyc delay]. repeat bind_ok H.
  destruct (negb _); [discriminate H |].
  repeat bind_ok H. injection H as <-. apply clamp_negative_spec.
Qed.

(** *** protSinusoid.genPulse *)

(** An interpolating spline through the points [(g t, h t)], read back at
    the abscissae [g t]. *)
Lemma spline_at_samples lib (g h : float -> float) ts k ext f :
  interpolating lib ->
  spline lib (map g ts) (map h ts) k ext = Ok f ->
  Forall (fun ti => f (g ti) = h ti) ts.
Proof.
  intros Hlib H. apply Forall_forall. intros ti Hin.
  apply In_nth_error in Hin. destruct Hin as [i Hi].
  apply (Hlib _ _ _ _ _ H i).
  - exact (map_nth_error g i ts Hi).
  - exact (map_nth_error h i ts Hi).
Qed.

(** C5: with a spline constructor that passes through the points it is
    given, the waveform [genPulse] returns for a run, an intensity [phi]
    and a pulse [pStart, pEnd] takes, at each of its own sample times
    [pStart + t], the value [phi0[run] + 0.5*phi*(1 - cos(w*t))] when
    [startOn] is false and [phi0[run] + 0.5*phi*(1 + cos(w*t))] when it is
    true, [w] being [ws[run]]. *)
Theorem C5_sinusoid_samples lib self run phi pStart pEnd f :
  interpolating lib ->
  genPulse lib self run phi (pStart, pEnd) = Ok f ->
  exists ts p0 w,
    sample_times self (pStart, pEnd) = Ok ts
    /\ getitem (phi0 self) run = Ok p0
    /\ getitem (ws self) run = Ok w
    /\ Forall (fun ti =>
                 f (pStart + ti)
                 = if startOn self
                   then p0 + 0.5 * phi * (1 + np_cos lib (w * ti))
                   else p0 + 0.5 * phi * (1 - np_cos lib (w * ti))) ts.
Proof.
  intros Hlib H. unfold genPulse in H. bind_ok H.
  exists a. destruct (startOn self); repeat bind_ok H;
    exists a0, a1; repeat split; auto.
  - exact (spline_at_samples lib (fun ti => pStart + ti)
             (fun ti => a0 + 0.5 * phi * (1 + np_cos lib (a1 * ti)))
             a 5 1 f Hlib H).
  - exact (spline_at_samples lib (fun ti => pStart + ti)
             (fun ti => a0 + 0.5 * phi * (1 - np_cos lib (a1 * ti)))
             a 5 1 f Hlib H).
Qed.

End ProtocolFacts.

(** ** Concrete compartments and cells *)

Module LfpWitnesses.

Import PyFloat Lfp LfpExamples.
Open Scope float_scope.





Lemma C9_parallel_series_witness :
  exists self host',
    init toy_log toy_interpolate toy_ran host0 "lfp" pops0 (0, 0, 0)
         333 0.5 100 0.5 1 = Ok (self, host')
    /\ (meanlfp self = [] /\ t self = [])
    /\ (forall s tk s' ev,
          sample_lfp s tk = Ok (s', ev) -> tick_rank tk = 0%Z ->
          exists m, meanlfp s' = meanlfp s ++ [m]
                    /\ t s' = t s ++ [tick_t tk])
    /\ (forall tks,
          List.length (t (run_samples self tks))
          = List.length (meanlfp (run_samples self tks))).
Proof.
  destruct (init toy_log toy_interpolate toy_ran host0 "lfp" pops0 (0, 0, 0)
              333 0.5 100 0.5 1) as [[self host'] | e] eqn:E.
  - exists self, host'. split; [reflexivity |].
    exact (LfpFacts.C9_parallel_series toy_log toy_interpolate toy_ran
             host0 "lfp" pops0 (0, 0, 0) 333 0.5 100 0.5 1 self host' E).
  - vm_compute in E. discriminate E.
Defined.

End LfpWitnesses.

(** ** Concrete protocols *)

Module ProtocolWitnesses.

Import PyFloat Protocols ProtocolExamples.
Open Scope float_scope.

Lemma C2_finish_unbound_Gmax_witness :
  finish PC_at_reversal RhO0
  = ([msg_reversal], Raise (UnboundLocalError "Gmax")).
Proof.
  apply (ProtocolFacts.C2_finish_unbound_Gmax PC_at_reversal RhO0 0);
    reflexivity.
Defined.

(** A supported name and an unsupported one. *)
Lemma C3_selectProtocol_witness :
  selectProtocol toy_params toy_nonempty toy_params toy_init "step" None
  = Raise (NameError "protList")
  /\ selectProtocol toy_params toy_nonempty toy_params toy_init
       "rectifier" (Some [("Dt_delay"%string, 10)])
     = Raise (NameError "protList").
Proof.
  split.
  - exact (proj1 (ProtocolFacts.C3_selectProtocol toy_params toy_nonempty
                    toy_params toy_init "step"%string None)).
  - exact (proj1 (ProtocolFacts.C3_selectProtocol toy_params toy_nonempty
                    toy_params toy_init "rectifier"%string
                    (Some [("Dt_delay"%string, 10)]))).
Defined.

Lemma C4_single_cycle_witness :
  cycles_array raw_single = Ok [[100; 50]]
  /\ prepare toy_sort (fun p => Ok p) raw_single
     = Raise (NameError "cycles2times").
Proof.
  exact (ProtocolFacts.C4_single_cycle toy_sort (fun p => Ok p) KList KList
           100 50 (Some 25) None (Nums [1e15; 1e16]) (Num (-70))).
Defined.

(** C8 as stated fails on a list: the empty list is a list, and
    [prepare] raises IndexError on it at [self.cycles[0]]. *)
Lemma C8_counterexample :
  is_sequence (raw_cycles raw_empty) = true
  /\ prepare toy_sort (fun p => Ok p) raw_empty = Raise IndexError.
Proof. split; reflexivity. Qed.

Lemma C8_prepare_cycles_witness :
  prepare toy_sort (fun p => Ok p)
    (mkRaw (CyDict [("on"%string, 100)]) (Some 25) (Some 175)
       (Num 1e16) (Num (-70)))
  = Raise TypeError
  /\ exists a,
       cycles_array raw_scalar = Ok a
       /\ a <> []
       /\ Forall (fun row => List.length row = 2%nat) a
       /\ prepare toy_sort (fun p => Ok p) raw_scalar
          = prepare_tail toy_sort (fun p => Ok p) raw_scalar a.
Proof.
  split.
  - apply (ProtocolFacts.C8_prepare_cycles toy_sort (fun p => Ok p)
             (mkRaw (CyDict [("on"%string, 100)]) (Some 25) (Some 175)
                (Num 1e16) (Num (-70)))); reflexivity.
  - apply (ProtocolFacts.C8_prepare_cycles toy_sort (fun p => Ok p)
             raw_scalar). reflexivity.
Defined.

(** The table look-up passes through its table. *)
Lemma lookup_at xs :
  forall ys i x y,
    distinct xs = true ->
    nth_error xs i = Some x -> nth_error ys i = Some y ->
    lookup xs ys x = y.
Proof.
  induction xs as [| x0 xs IH]; intros ys i x y Hd Hx Hy.
  - destruct i; discriminate.
  - simpl in Hd. apply andb_prop in Hd. destruct Hd as [Hfresh Hd].
    destruct ys as [| y0 ys]; [destruct i; discriminate |].
    destruct i as [| i]; simpl in *.
    + injection Hx as ->. injection Hy as ->.
      now rewrite (proj2 (FloatAxioms.Leibniz.eqb_spec x x) eq_refl).
    + destruct (Leibniz.eqb x0 x) eqn:Heq.
      * apply nth_error_In in Hx.
        assert (Hex : existsb (Leibniz.eqb x0) xs = true)
          by (apply existsb_exists; eauto).
        rewrite Hex in Hfresh. discriminate.
      * eapply IH; eauto.
Qed.

Lemma toy_lib_interpolating : interpolating toy_lib.
Proof.
  intros xs ys k ext f H i x y Hx Hy. simpl in H. unfold toy_spline in H.
  destruct (_ && _ && distinct xs) eqn:Hok; [| discriminate].
  injection H as <-. apply andb_prop in Hok. destruct Hok as [_ Hd].
  eapply lookup_at; eauto.
Qed.

Lemma C5_sinusoid_samples_witness :
  exists f ts p0 w,
    genPulse toy_lib sin50 0 2 (25, 26) = Ok f
    /\ sample_times sin50 (25, 26) = Ok ts
    /\ getitem (phi0 sin50) 0 = Ok p0
    /\ getitem (ws sin50) 0 = Ok w
    /\ Forall (fun ti =>
                 f (25 + ti)
                 = if startOn sin50
                   then p0 + 0.5 * 2 * (1 + np_cos toy_lib (w * ti))
                   else p0 + 0.5 * 2 * (1 - np_cos toy_lib (w * ti))) ts.
Proof.
  destruct (genPulse toy_lib sin50 0 2 (25, 26)) as [f | e] eqn:Hg.
  - destruct (ProtocolFacts.C5_sinusoid_samples toy_lib sin50 0 2 25 26 f
                toy_lib_interpolating Hg) as [ts [p0 [w H]]].
    exists f, ts, p0, w. split; [reflexivity | exact H].
  - vm_compute in Hg. discriminate Hg.
Defined.

Lemma C10_stim_not_negative_witness :
  exists arr,
    getStimArray getRunCycles falling 0 0 1 = Ok arr
    /\ Forall (fun v => (v <? 0) = false
                        /\ (is_nan v = false -> (0 <=? v) = true)) arr.
Proof.
  destruct (getStimArray getRunCycles falling 0 0 1) as [arr | e] eqn:Hs.
  - exists arr. split; [reflexivity |].
    exact (ProtocolFacts.C10_stim_not_negative getRunCycles falling 0 0 1
             arr Hs).
  - vm_compute in Hs. discriminate Hs.
Defined.

(** C10 as stated fails where a waveform is not a number: the clamp
    replaces what is below zero, a NaN is not, and it is returned; NaN is
    not greater than or equal to 0. *)
Lemma C10_counterexample :
  exists arr v,
    getStimArray getRunCycles undefined_wave 0 0 5 = Ok arr
    /\ In v arr
    /\ (0 <=? v) = false.
Proof.
  exists [0; 0; nan; nan; nan], nan.
  split; [vm_compute; reflexivity | split; [| reflexivity]].
  simpl. auto.
Qed.

End ProtocolWitnesses.

(** * Further properties of lfp.py *)

Module LfpMoreFacts.

Import PyFloat Lfp LfpShape FloatFacts.
Open Scope float_scope.

(** *** Dicts *)

Lemma dict_get_set {A} (d : list (string * A)) k v k' :
  dict_get (dict_set d k v) k'
  = if String.eqb k k' then Ok v else dict_get d k'.
Proof.
  induction d as [| [k0 v0] tl IH]; simpl.
  - reflexivity.
  - destruct (String.eqb_spec k0 k) as [-> | Hne]; simpl.
    + now destruct (String.eqb k k').
    + rewrite IH. destruct (String.eqb_spec k0 k') as [-> | Hne'].
      * destruct (String.eqb_spec k k') as [-> | _]; [contradiction | reflexivity].
      * reflexivity.
Qed.

Lemma in_insert_sorted k x l : In x (insert_sorted k l) <-> x = k \/ In x l.
Proof.
  induction l as [| h tl IH]; simpl.
  - intuition.
  - destruct (String.ltb k h); simpl; rewrite ?IH; intuition.
Qed.

Lemma in_sorted x l : In x (sorted l) <-> In x l.
Proof.
  unfold sorted. induction l as [| h tl IH]; simpl.
  - reflexivity.
  - rewrite in_insert_sorted, IH. intuition.
Qed.

(** *** Shapes *)

Lemma shape_inserted host gid c :
  host gid = Some c ->
  forall g, shape (host_set host gid (inserted c)) g = shape host g.
Proof.
  intros Hc g. unfold shape, host_set.
  destruct (Z.eqb_spec g gid) as [-> | Hne]; [| reflexivity].
  rewrite Hc. simpl. rewrite map_map. reflexivity.
Qed.

Lemma sum_nseg_from secs : forall n0 sec,
  In sec secs ->
  (nseg sec <= fold_left (fun n s => (n + nseg s)%nat) secs n0)%nat.
Proof.
  assert (Hmono : forall (l : list Sec) n0,
             (n0 <= fold_left (fun n s => (n + nseg s)%nat) l n0)%nat).
  { induction l as [| s l IH]; intros n0; simpl; [lia |].
    specialize (IH (n0 + nseg s)%nat). lia. }
  induction secs as [| s secs IH]; intros n0 sec Hin; simpl.
  - contradiction.
  - destruct Hin as [-> | Hin].
    + specialize (Hmono secs (n0 + nseg sec)%nat). lia.
    + now apply IH.
Qed.

(** *** The tables setup_lfp builds *)

Lemma gid_lfptype_range self host gid r ty :
  gid_lfptype self host gid r = Ok (Some ty) ->
  host gid <> None /\ (ty = 0 \/ ty = 1 \/ ty = 2)%Z.
Proof.
  unfold gid_lfptype. destruct (host gid) as [cell |]; [| discriminate].
  destruct (cell_is_art cell); [discriminate |].
  destruct (cell_is_reduced cell); [discriminate |].
  intros H. bind_ok H. injection H as <-. split; [discriminate |].
  unfold lfptype_of. destruct (_ <? _); auto. destruct (_ <? _); auto.
Qed.

Lemma tables_fit_nil sh : tables_fit sh [] [] [].
Proof.
  unfold tables_fit. repeat split; auto.
  intros [| i] gid vec H; discriminate H.
Qed.

Lemma tables_fit_snoc sh ids types coeffs gid ty vec szs :
  tables_fit sh ids types coeffs ->
  (ty = 1 \/ ty = 2)%Z ->
  sh gid = Some szs ->
  Forall (fun p => (snd p <= List.length vec)%nat) szs ->
  tables_fit sh (ids ++ [gid]) (types ++ [ty]) (coeffs ++ [vec]).
Proof.
  intros [Ht [Hc [Hty Hfit]]] Hnew Hsh Hvec. unfold tables_fit.
  rewrite !length_app. simpl. repeat split; try lia.
  - apply Forall_app. split; auto.
  - intros i g v Hi Hv.
    destruct (Nat.lt_ge_cases i (List.length ids)) as [Hlt | Hge].
    + rewrite nth_error_app1 in Hi by lia.
      rewrite nth_error_app1 in Hv by lia. eauto.
    + rewrite nth_error_app2 in Hi by lia.
      rewrite nth_error_app2 in Hv by lia.
      rewrite Hc in Hv.
      destruct (i - List.length ids)%nat as [| m]; simpl in *.
      * injection Hi as <-. injection Hv as <-. eauto.
      * destruct m; discriminate.
Qed.

(** One candidate: the shapes stay, the tables still fit, and the ids
    grow by the candidate or not at all. *)
Lemma setup_gid_fits self host tabs gid r host' tabs' sh :
  (forall g, shape host g = sh g) ->
  (forall g szs, sh g = Some szs ->
                 Forall (fun p => (snd p <= fst p)%nat) szs) ->
  tables_fit sh (tab_ids tabs) (tab_types tabs) (tab_coeffs tabs) ->
  setup_gid self (host, tabs) gid r = Ok (host', tabs') ->
  (forall g, shape host' g = sh g)
  /\ tables_fit sh (tab_ids tabs') (tab_types tabs') (tab_coeffs tabs')
  /\ (tab_ids tabs' = tab_ids tabs \/ tab_ids tabs' = tab_ids tabs ++ [gid]).
Proof.
  intros Hsh Hwf Hfit H. unfold setup_gid in H. bind_ok H.
  destruct a as [ty |]; [| injection H as <- <-; auto].
  destruct (gid_lfptype_range _ _ _ _ _ E) as [_ Hty].
  destruct (host gid) as [cell |] eqn:Hg; [| injection H as <- <-; auto].
  destruct (ty >? 0)%Z eqn:Hpos; [| injection H as <- <-; auto].
  unfold record_cell in H. injection H as <- <-. simpl.
  assert (Hone : (ty = 1 \/ ty = 2)%Z).
  { apply Z.gtb_lt in Hpos. lia. }
  split; [| split; [| right; reflexivity]].
  - intros g. rewrite <- Hsh. exact (shape_inserted host gid cell Hg g).
  - assert (Hs : sh gid = Some (map sec_shape (all cell))).
    { rewrite <- Hsh. unfold shape. now rewrite Hg. }
    apply (tables_fit_snoc sh _ _ _ gid ty _ _ Hfit Hone Hs).
    rewrite repeat_length. apply Forall_forall. intros p Hp.
    apply in_map_iff in Hp. destruct Hp as [sec [<- Hin]]. simpl.
    pose proof (Hwf gid _ Hs) as Hc. rewrite Forall_forall in Hc.
    specialize (Hc (sec_shape sec) (in_map sec_shape _ _ Hin)). simpl in Hc.
    pose proof (sum_nseg_from (all cell) 0%nat sec Hin). lia.
Qed.

Section Tables.

Variable ranlfp : Z -> nat -> float.

Lemma gid_loop_fits self rseed sh gids :
  (forall g szs, sh g = Some szs ->
                 Forall (fun p => (snd p <= fst p)%nat) szs) ->
  forall n host tabs host' tabs',
    (forall g, shape host g = sh g) ->
    tables_fit sh (tab_ids tabs) (tab_types tabs) (tab_coeffs tabs) ->
    gid_loop ranlfp self rseed gids n (host, tabs) = Ok (host', tabs') ->
    (forall g, shape host' g = sh g)
    /\ tables_fit sh (tab_ids tabs') (tab_types tabs') (tab_coeffs tabs')
    /\ exists added, tab_ids tabs' = tab_ids tabs ++ added
                     /\ incl added gids.
Proof.
  intros Hwf. induction gids as [| gid rest IH];
    intros n host tabs host' tabs' Hsh Hfit H; simpl in H.
  - injection H as <- <-. split; [exact Hsh | split; [exact Hfit |]].
    exists []. rewrite app_nil_r. split; [reflexivity | apply incl_nil_l].
  - bind_ok H. destruct a as [host1 tabs1].
    destruct (setup_gid_fits _ _ _ _ _ _ _ sh Hsh Hwf Hfit E)
      as [Hsh1 [Hfit1 Hids1]].
    destruct (IH _ _ _ _ _ Hsh1 Hfit1 H) as [Hsh' [Hfit' [added [Hadd Hincl]]]].
    split; [exact Hsh' | split; [exact Hfit' |]].
    destruct Hids1 as [Heq | Heq]; rewrite Heq in Hadd.
    + exists added. split; [exact Hadd |]. now apply incl_tl.
    + exists (gid :: added). rewrite <- app_assoc in Hadd. simpl in Hadd.
      split; [exact Hadd |].
      apply incl_cons; [left; reflexivity | now apply incl_tl].
Qed.

End Tables.

(** *** What setup_lfp_coeffs writes *)

Section Written.

Variable libm_log : float -> float.
Variable interpolate : list float -> list float -> list float -> list float.
Variable ranlfp : Z -> nat -> float.

(** [for seg in sec] writes the entries [j], ..., [j + len - 1] and no
    other. *)
Lemma seg_loop_outside self lfptype sec xi yi zi s0 ss :
  forall j vec vec',
    seg_loop libm_log self lfptype sec xi yi zi s0 ss j vec = Ok vec' ->
    List.length vec' = List.length vec
    /\ (forall i, (i < j \/ j + List.length ss <= i)%nat ->
                  nth_error vec' i = nth_error vec i).
Proof.
  induction ss as [| seg rest IH]; intros j vec vec' H; simpl in H.
  - injection H as <-. auto.
  - repeat bind_ok H. apply IH in H. destruct H as [Hlen Hout].
    destruct (LfpFacts.setitem_ok _ _ _ _ E3) as [Hl [_ Hoff]].
    split; [congruence |].
    intros i Hi. simpl in Hi. rewrite Hout by lia. apply Hoff. lia.
Qed.

Lemma sec_coeffs_outside self lfptype sec vec vec' :
  sec_coeffs libm_log interpolate self lfptype sec vec = Ok vec' ->
  List.length vec' = List.length vec
  /\ (forall i, (extracellular sec = true -> List.length (segs sec) <= i)%nat ->
                nth_error vec' i = nth_error vec i).
Proof.
  unfold sec_coeffs. destruct (extracellular sec).
  - intros H. bind_ok H. destruct a as [[xi yi] zi]. repeat bind_ok H.
    apply seg_loop_outside in H. destruct H as [Hlen Hout].
    split; [exact Hlen |]. intros i Hi. apply Hout. right. simpl.
    now apply Hi.
  - intros [= <-]. auto.
Qed.

(** X4: the coefficient index restarts at 0 in every section of a cell, so
    the loop over the sections leaves the length of the cell's Vector as it
    was and never writes an entry at or past the largest segment count of
    its sections that carry the extracellular mechanism. *)
Theorem cell_coeffs_untouched self lfptype secs :
  forall vec vec',
    cell_coeffs libm_log interpolate self lfptype secs vec = Ok vec' ->
    List.length vec' = List.length vec
    /\ (forall i,
          (forall sec, In sec secs -> extracellular sec = true ->
                       (List.length (segs sec) <= i)%nat) ->
          nth_error vec' i = nth_error vec i).
Proof.
  induction secs as [| sec rest IH]; intros vec vec' H; simpl in H.
  - injection H as <-. auto.
  - bind_ok H. apply IH in H. destruct H as [Hlen Hout].
    apply sec_coeffs_outside in E. destruct E as [Hlen1 Hout1].
    split; [congruence |].
    intros i Hi. rewrite Hout.
    + apply Hout1. intros Hx. apply (Hi sec); [left; reflexivity | exact Hx].
    + intros s Hs. apply Hi. now right.
Qed.

Lemma pop_coeffs_lengths self host ids types n :
  forall i coeffs coeffs',
    pop_coeffs libm_log interpolate self host ids types i n coeffs
    = Ok coeffs' ->
    List.length coeffs' = List.length coeffs
    /\ (forall k vec', nth_error coeffs' k = Some vec' ->
          exists vec, nth_error coeffs k = Some vec
                      /\ List.length vec' = List.length vec).
Proof.
  induction n as [| n IH]; intros i coeffs coeffs' H; simpl in H.
  - injection H as <-. eauto.
  - repeat bind_ok H. apply IH in H. destruct H as [Hlen Hvec].
    destruct (LfpFacts.setitem_ok _ _ _ _ E4) as [Hl [Hat Hoff]].
    apply cell_coeffs_untouched in E3. destruct E3 as [Hl3 _].
    split; [congruence |].
    intros k vec' Hk. destruct (Hvec k vec' Hk) as [v1 [Hv1 Hlv]].
    destruct (Nat.eq_dec k i) as [-> | Hne].
    + rewrite Hat in Hv1. injection Hv1 as <-.
      unfold getitem in E2.
      destruct (nth_error coeffs i) as [v0 |] eqn:Hn; [| discriminate].
      injection E2 as ->. exists a2. split; [reflexivity | congruence].
    + rewrite (Hoff k Hne) in Hv1. eauto.
Qed.

Lemma tables_fit_lengths sh ids types coeffs coeffs' :
  tables_fit sh ids types coeffs ->
  List.length coeffs' = List.length coeffs ->
  (forall k vec', nth_error coeffs' k = Some vec' ->
     exists vec, nth_error coeffs k = Some vec
                 /\ List.length vec' = List.length vec) ->
  tables_fit sh ids types coeffs'.
Proof.
  intros [Ht [Hc [Hty Hfit]]] Hlen Hvec. unfold tables_fit.
  repeat split; auto; try congruence.
  intros i gid vec' Hi Hv. destruct (Hvec i vec' Hv) as [vec [Hv0 Hl]].
  destruct (Hfit i gid vec Hi Hv0) as [szs [Hs Hall]].
  exists szs. split; [exact Hs |]. now rewrite Hl.
Qed.

Lemma object_fits_incl sh self l1 l2 :
  incl l1 l2 -> object_fits sh self l2 -> object_fits sh self l1.
Proof. intros Hi H pop Hp. apply H, Hi, Hp. Qed.

Lemma pop_loop_fits sh :
  (forall g szs, sh g = Some szs ->
                 Forall (fun p => (snd p <= fst p)%nat) szs) ->
  forall pops self host ipop self' host' done,
    (forall g, shape host g = sh g) ->
    object_fits sh self done ->
    pop_loop ranlfp self host pops ipop = Ok (self', host') ->
    (forall g, shape host' g = sh g)
    /\ object_fits sh self' (pops ++ done)
    /\ pop_gid_dict self' = pop_gid_dict self.
Proof.
  intros Hwf. induction pops as [| pop_name rest IH];
    intros self host ipop self' host' done Hsh Hobj H; simpl in H.
  - injection H as <- <-. auto.
  - repeat bind_ok H. destruct a0 as [host1 tabs].
    destruct (gid_loop_fits ranlfp self _ sh a Hwf _ host (mkTables [] [] [])
                host1 tabs Hsh (tables_fit_nil sh) E0) as [Hsh1 [Hfit1 _]].
    apply (IH _ _ _ _ _ (pop_name :: done) Hsh1) in H.
    + destruct H as [Hsh' [Hobj' Hd]]. split; [exact Hsh' | split].
      * eapply object_fits_incl; [| exact Hobj'].
        intros x Hx. simpl in Hx. apply in_or_app.
        destruct Hx as [<- | Hx]; [right; left; reflexivity |].
        apply in_app_or in Hx. destruct Hx; [left | right; right]; auto.
      * exact Hd.
    + intros pop Hp. simpl. rewrite !dict_get_set.
      destruct (String.eqb_spec pop_name pop) as [-> | Hne].
      * simpl in Hfit1. eauto 8.
      * destruct Hp as [-> | Hp]; [contradiction |]. exact (Hobj pop Hp).
Qed.

Lemma setup_lfp_coeffs_loop_fits sh pops :
  forall self host self' done,
    object_fits sh self done ->
    setup_lfp_coeffs_loop libm_log interpolate self host pops = Ok self' ->
    object_fits sh self' done
    /\ pop_gid_dict self' = pop_gid_dict self.
Proof.
  induction pops as [| pop_name rest IH]; intros self host self' done Hobj H;
    simpl in H.
  - injection H as <-. auto.
  - repeat bind_ok H. apply pop_coeffs_lengths in E2.
    destruct E2 as [Hlen Hvec].
    apply IH with (done := done) in H.
    + destruct H as [Hobj' Hd]. split; [exact Hobj' | exact Hd].
    + intros pop Hp. simpl. rewrite dict_get_set.
      destruct (Hobj pop Hp) as [ids [types [coeffs [Hi [Ht [Hc Hfit]]]]]].
      destruct (String.eqb_spec pop_name pop) as [-> | Hne].
      * rewrite Hc in E1. injection E1 as <-.
        exists ids, types, a2.
        split; [exact Hi | split; [exact Ht | split; [reflexivity |]]].
        eapply tables_fit_lengths; eauto.
      * eauto 8.
Qed.

End Written.

(** *** Construction and sampling *)

Section Sampling.

Variable libm_log : float -> float.
Variable interpolate : list float -> list float -> list float -> list float.
Variable ranlfp : Z -> nat -> float.

Lemma object_fits_empty sh label dt_lfp seed pos maxEDist rho fdst dict :
  object_fits sh (mkLFP label dt_lfp seed pos maxEDist rho fdst
                        [] [] [] [] [] dict) [].
Proof. intros pop []. Qed.

(** X1: in the object [LFP.__init__] returns, every population of
    [pop_gid_dict] has its entry in [lfp_ids], [lfp_types] and
    [lfp_coeffs]; the three run in parallel (one type and one Vector per
    recorded gid); every recorded type is 1 or 2; every recorded gid is
    owned by the process; and, on a host whose sections yield no more
    segments than [nseg], each Vector has room for every section of its
    cell.  The construction changes no segment count of the host. *)
Theorem init_tables host label pop_gid_dict pos rho fdst maxEDist dt_lfp seed
    self host' :
  segments_counted host ->
  init libm_log interpolate ranlfp host label pop_gid_dict pos
       rho fdst maxEDist dt_lfp seed = Ok (self, host') ->
  Lfp.pop_gid_dict self = pop_gid_dict
  /\ (forall g, shape host' g = shape host g)
  /\ object_fits (shape host) self (map fst pop_gid_dict).
Proof.
  intros Hwf H. unfold init, setup_lfp in H. bind_ok H.
  destruct a as [self1 host1]. bind_ok H. injection H as <- <-.
  apply (pop_loop_fits ranlfp (shape host) Hwf) with (done := []) in E;
    [| reflexivity | apply object_fits_empty].
  destruct E as [Hsh [Hobj Hd]]. simpl in Hd, Hobj.
  unfold setup_lfp_coeffs in E0.
  apply (setup_lfp_coeffs_loop_fits libm_log interpolate (shape host))
    with (done := sorted (map fst pop_gid_dict) ++ []) in E0;
    [| exact Hobj].
  destruct E0 as [Hobj' Hd']. split; [congruence | split; [exact Hsh |]].
  eapply object_fits_incl; [| exact Hobj'].
  intros x Hx. apply in_or_app. left. now apply in_sorted.
Qed.

Lemma seg_sum_ok coeffs i vec ss :
  nth_error coeffs i = Some vec ->
  forall j vlfp,
    (j + List.length ss <= List.length vec)%nat ->
    exists v, seg_sum coeffs i ss j vlfp = Ok v.
Proof.
  intros Hv. induction ss as [| seg rest IH]; intros j vlfp Hj; simpl.
  - eauto.
  - unfold getitem at 1. rewrite Hv. simpl. simpl in Hj.
    unfold getitem at 1.
    destruct (nth_error vec j) as [c |] eqn:Hc.
    + simpl. apply IH. lia.
    + apply nth_error_None in Hc. lia.
Qed.

Lemma sec_sum_ok coeffs i vec secs :
  nth_error coeffs i = Some vec ->
  Forall (fun p => (snd p <= List.length vec)%nat) (map sec_shape secs) ->
  forall vlfp, exists v, sec_sum coeffs i secs vlfp = Ok v.
Proof.
  intros Hv. induction secs as [| sec rest IH]; intros Hall vlfp; simpl.
  - eauto.
  - simpl in Hall. inversion Hall as [| p l Hsec Hrest]; subst.
    simpl in Hsec.
    destruct (extracellular sec).
    + destruct (seg_sum_ok coeffs i vec (segs sec) Hv 0%nat vlfp Hsec)
        as [v ->].
      simpl. now apply IH.
    + simpl. now apply IH.
Qed.

Lemma cell_sum_ok sh host ids types coeffs :
  (forall g, shape host g = sh g) ->
  tables_fit sh ids types coeffs ->
  forall n i vlfp,
    (i + n <= List.length ids)%nat ->
    exists v, cell_sum host ids coeffs i n vlfp = Ok v.
Proof.
  intros Hsh [_ [Hc [_ Hfit]]]. induction n as [| n IH]; intros i vlfp Hi;
    simpl.
  - eauto.
  - unfold getitem.
    destruct (nth_error ids i) as [gid |] eqn:Hg;
      [| apply nth_error_None in Hg; lia].
    simpl.
    destruct (nth_error coeffs i) as [vec |] eqn:Hv;
      [| apply nth_error_None in Hv; lia].
    destruct (Hfit i gid vec Hg Hv) as [szs [Hs Hall]].
    rewrite <- Hsh in Hs. unfold shape in Hs. unfold gid2cell.
    destruct (host gid) as [cell |]; [| discriminate].
    simpl in Hs. injection Hs as <-. simpl.
    destruct (sec_sum_ok coeffs i vec (all cell) Hv Hall vlfp) as [v ->].
    simpl. apply IH. lia.
Qed.

Lemma pop_sum_ok sh self host pops :
  (forall g, shape host g = sh g) ->
  object_fits sh self pops ->
  forall vlfp, exists v, pop_sum self host pops vlfp = Ok v.
Proof.
  intros Hsh. induction pops as [| pop rest IH]; intros Hobj vlfp; simpl.
  - eauto.
  - destruct (Hobj pop (or_introl eq_refl))
      as [ids [types [coeffs [Hi [_ [Hc Hfit]]]]]].
    rewrite Hi, Hc. simpl.
    destruct (cell_sum_ok sh host ids types coeffs Hsh Hfit
                (List.length ids) 0%nat vlfp (le_n _)) as [v ->].
    simpl. apply IH. intros p Hp. apply Hobj. now right.
Qed.

(** X2: sampling does not fail on a constructed object: with a host whose
    sections yield no more segments than [nseg], and at a time when the
    cells have the segment counts they had at construction, [sample_lfp]
    returns and queues the next sample at [h.t + dt_lfp]. *)
Theorem sample_lfp_returns host label pop_gid_dict pos rho fdst maxEDist
    dt_lfp seed self host' tk :
  segments_counted host ->
  init libm_log interpolate ranlfp host label pop_gid_dict pos
       rho fdst maxEDist dt_lfp seed = Ok (self, host') ->
  (forall g, shape (tick_host tk) g = shape host' g) ->
  exists self',
    sample_lfp self tk = Ok (self', tick_t tk + Lfp.dt_lfp self).
Proof.
  intros Hwf Hinit Htk.
  destruct (init_tables _ _ _ _ _ _ _ _ _ _ _ Hwf Hinit) as [Hd [Hsh Hobj]].
  assert (Hs : forall g, shape (tick_host tk) g = shape host g)
    by (intros g; now rewrite Htk, Hsh).
  unfold sample_lfp, pos_lfp. rewrite Hd.
  destruct (pop_sum_ok (shape host) self (tick_host tk)
              (map fst pop_gid_dict) Hs Hobj 0) as [v ->].
  simpl. destruct (tick_rank tk =? 0)%Z; eauto.
Qed.

Lemma sample_lfp_tables self tk self' ev :
  sample_lfp self tk = Ok (self', ev) ->
  lfp_ids self' = lfp_ids self
  /\ lfp_types self' = lfp_types self
  /\ lfp_coeffs self' = lfp_coeffs self
  /\ Lfp.pop_gid_dict self' = Lfp.pop_gid_dict self.
Proof.
  unfold sample_lfp. intros H. bind_ok H. injection H as <- _.
  destruct (tick_rank tk =? 0)%Z; simpl; auto.
Qed.

Lemma object_fits_tables sh self self' pops :
  lfp_ids self' = lfp_ids self ->
  lfp_types self' = lfp_types self ->
  lfp_coeffs self' = lfp_coeffs self ->
  object_fits sh self pops -> object_fits sh self' pops.
Proof.
  intros Hi Ht Hc H pop Hp. rewrite Hi, Ht, Hc. exact (H pop Hp).
Qed.

(** The ticks of the rank-0 process. *)
Lemma run_samples_times sh tks :
  forall self,
    object_fits sh self (map fst (Lfp.pop_gid_dict self)) ->
    Forall (fun tk => forall g, shape (tick_host tk) g = sh g) tks ->
    t (run_samples self tks)
    = t self ++ map tick_t (filter (fun tk => (tick_rank tk =? 0)%Z) tks)
    /\ lfp_coeffs (run_samples self tks) = lfp_coeffs self.
Proof.
  induction tks as [| tk rest IH]; intros self Hobj Hall; simpl.
  - now rewrite app_nil_r.
  - inversion Hall as [| x l Htk Hrest]; subst.
    assert (Hok : exists v, pos_lfp self tk = Ok v).
    { unfold pos_lfp.
      destruct (pop_sum_ok sh self (tick_host tk) _ Htk Hobj 0) as [v ->].
      simpl. eauto. }
    destruct (sample_lfp self tk) as [[self' ev] |] eqn:Hs.
    + destruct (sample_lfp_tables _ _ _ _ Hs) as [Hi [Ht [Hc Hd]]].
      destruct (IH self') as [IHt IHc]; auto.
      { rewrite Hd. eapply object_fits_tables; eauto. }
      rewrite IHt, IHc. split; [| exact Hc].
      apply LfpFacts.sample_lfp_appends in Hs.
      destruct (tick_rank tk =? 0)%Z.
      * destruct Hs as [m [_ ->]]. simpl. now rewrite <- app_assoc.
      * destruct Hs as [_ ->]. reflexivity.
    + destruct Hok as [v Hv]. unfold sample_lfp in Hs. rewrite Hv in Hs.
      discriminate Hs.
Qed.

(** X3: on a constructed object, and while the cells keep their segment
    counts, no invocation of [sample_lfp] is lost: after a series of
    invocations [t] holds the times [h.t] of the invocations made on rank 0,
    in order, and the coefficients are the ones the construction
    computed. *)
Theorem samples_in_order host label pop_gid_dict pos rho fdst maxEDist
    dt_lfp seed self host' tks :
  segments_counted host ->
  init libm_log interpolate ranlfp host label pop_gid_dict pos
       rho fdst maxEDist dt_lfp seed = Ok (self, host') ->
  Forall (fun tk => forall g, shape (tick_host tk) g = shape host' g) tks ->
  t (run_samples self tks)
  = map tick_t (filter (fun tk => (tick_rank tk =? 0)%Z) tks)
  /\ lfp_coeffs (run_samples self tks) = lfp_coeffs self.
Proof.
  intros Hwf Hinit Hall.
  destruct (init_tables _ _ _ _ _ _ _ _ _ _ _ Hwf Hinit) as [Hd [Hsh Hobj]].
  destruct (run_samples_times (shape host) tks self) as [Ht Hc].
  - now rewrite Hd.
  - eapply Forall_impl; [| exact Hall]. intros tk Htk g.
    now rewrite Htk, Hsh.
  - split; [| exact Hc]. rewrite Ht.
    unfold init in Hinit. apply LfpFacts.setup_lfp_samples in Hinit.
    destruct Hinit as [_ ->]. reflexivity.
Qed.

End Sampling.

(** *** interpxyz *)

Section Nodes.

Variable libm_log : float -> float.
Variable interpolate : list float -> list float -> list float -> list float.

(** X5: [interpxyz] interpolates at [nsegs + 2] abscissae: 0, then for the
    segments [i = 1, ..., nsegs] the value [i * (1.0/nsegs) - 1.0/(2*nsegs)],
    then 1; the arc lengths it interpolates over are divided by the last of
    them. *)
Theorem interpxyz_nodes nn nsegs xx yy zz ll xi yi zi :
  interpxyz interpolate nn nsegs xx yy zz ll = Ok (xi, yi, zi) ->
  exists last step half rangev,
    nth_error ll (nn - 1) = Some last
    /\ truediv 1.0 (of_nat nsegs) = Ok step
    /\ truediv 1.0 (of_nat (2 * nsegs)) = Ok half
    /\ List.length rangev = (nsegs + 2)%nat
    /\ nth_error rangev 0 = Some 0
    /\ nth_error rangev (nsegs + 1) = Some 1
    /\ (forall i, (1 <= i <= nsegs)%nat ->
                  nth_error rangev i = Some (of_nat i * step - half))
    /\ xi = interpolate rangev (map (fun v => v / last) ll) xx
    /\ yi = interpolate rangev (map (fun v => v / last) ll) yy
    /\ zi = interpolate rangev (map (fun v => v / last) ll) zz.
Proof.
  unfold interpxyz. intros H. repeat bind_ok H. injection H as <- <- <-.
  exists a, a0, a1, a3.
  destruct (LfpFacts.setitem_ok _ _ _ _ E2) as [Hl2 [Hat2 Hoff2]].
  destruct (LfpFacts.setitem_ok _ _ _ _ E3) as [Hl3 [Hat3 Hoff3]].
  assert (Hnn : nth_error ll (nn - 1) = Some a).
  { destruct nn as [| n']; [discriminate |]. simpl. rewrite Nat.sub_0_r.
    unfold getitem in E. destruct (nth_error ll n'); [congruence | discriminate]. }
  repeat split; auto.
  - rewrite Hl3, Hl2, !length_map, length_seq. reflexivity.
  - rewrite Hoff3 by lia. exact Hat2.
  - intros i Hi. rewrite Hoff3, Hoff2 by lia.
    rewrite nth_error_map, nth_error_map.
    rewrite (nth_error_nth' (seq 0 (nsegs + 2)) 0%nat)
      by (rewrite length_seq; lia).
    rewrite seq_nth by lia. reflexivity.
Qed.

(** X6: a section that carries the extracellular mechanism stops
    [setup_lfp_coeffs]: with IndexError when it has no 3-D point, with
    ZeroDivisionError when it has points and [nseg] is 0. *)
Theorem sec_coeffs_degenerate self lfptype sec vec :
  extracellular sec = true ->
  (pt3d sec = [] ->
   sec_coeffs libm_log interpolate self lfptype sec vec = Raise IndexError)
  /\ (pt3d sec <> [] -> nseg sec = 0%nat ->
      sec_coeffs libm_log interpolate self lfptype sec vec
      = Raise ZeroDivisionError).
Proof.
  intros Hx. unfold sec_coeffs. rewrite Hx. split.
  - intros ->. reflexivity.
  - intros Hne ->. unfold interpxyz.
    destruct (pt3d sec) as [| p ps] eqn:Hp; [contradiction |].
    assert (Hlast : exists last,
               getitem (map arc3d (p :: ps)) (List.length ps) = Ok last).
    { unfold getitem.
      destruct (nth_error (map arc3d (p :: ps)) (List.length ps)) eqn:Hn;
        eauto.
      apply nth_error_None in Hn. rewrite length_map in Hn. simpl in Hn. lia. }
    destruct Hlast as [last Hlast].
    change (List.length (p :: ps)) with (S (List.length ps)).
    cbv iota beta. rewrite Hlast. reflexivity.
Qed.

End Nodes.

(** *** The extracellular mechanism *)

Section Marked.

Variable libm_log : float -> float.
Variable interpolate : list float -> list float -> list float -> list float.
Variable ranlfp : Z -> nat -> float.

Lemma marked_host_set host gid c g :
  (g = gid \/ marked host g) -> marked (host_set host gid (inserted c)) g.
Proof.
  unfold marked, host_set. intros H.
  destruct (Z.eqb_spec g gid) as [-> | Hne].
  - exists (inserted c). split; [reflexivity |]. simpl.
    apply Forall_forall. intros sec Hin. apply in_map_iff in Hin.
    destruct Hin as [s0 [<- _]]. reflexivity.
  - destruct H as [-> | H]; [contradiction | exact H].
Qed.

Lemma setup_gid_marked self host tabs gid r host' tabs' :
  setup_gid self (host, tabs) gid r = Ok (host', tabs') ->
  (forall g, marked host g -> marked host' g)
  /\ (Forall (marked host) (tab_ids tabs) ->
      Forall (marked host') (tab_ids tabs')).
Proof.
  intros H. unfold setup_gid in H. bind_ok H.
  destruct a as [ty |]; [| injection H as <- <-; auto].
  destruct (host gid) as [cell |] eqn:Hg; [| injection H as <- <-; auto].
  destruct (ty >? 0)%Z; [| injection H as <- <-; auto].
  unfold record_cell in H. injection H as <- <-. simpl. split.
  - intros g Hm. apply (marked_host_set host gid cell g). now right.
  - intros Hall. apply Forall_app. split.
    + eapply Forall_impl; [| exact Hall]. intros g Hm.
      apply (marked_host_set host gid cell g). now right.
    + constructor; [| constructor].
      apply (marked_host_set host gid cell gid). now left.
Qed.

Lemma gid_loop_marked self rseed gids :
  forall n host tabs host' tabs',
    gid_loop ranlfp self rseed gids n (host, tabs) = Ok (host', tabs') ->
    (forall g, marked host g -> marked host' g)
    /\ (Forall (marked host) (tab_ids tabs) ->
        Forall (marked host') (tab_ids tabs')).
Proof.
  induction gids as [| gid rest IH]; intros n host tabs host' tabs' H;
    simpl in H.
  - injection H as <- <-. auto.
  - bind_ok H. destruct a as [host1 tabs1].
    apply setup_gid_marked in E. destruct E as [Hm1 Hf1].
    apply IH in H. destruct H as [Hm2 Hf2]. split; auto.
Qed.

Lemma pop_loop_marked pops :
  forall self host ipop self' host' done,
    (forall pop ids, In pop done -> dict_get (lfp_ids self) pop = Ok ids ->
                     Forall (marked host) ids) ->
    pop_loop ranlfp self host pops ipop = Ok (self', host') ->
    forall pop ids, In pop (pops ++ done) ->
                    dict_get (lfp_ids self') pop = Ok ids ->
                    Forall (marked host') ids.
Proof.
  induction pops as [| pop_name rest IH];
    intros self host ipop self' host' done Hinv H; simpl in H.
  - injection H as <- <-. exact Hinv.
  - repeat bind_ok H. destruct a0 as [host1 tabs].
    apply gid_loop_marked in E0. destruct E0 as [Hm1 Hf1].
    specialize (Hf1 (Forall_nil _)).
    intros pop ids Hp Hd.
    apply (IH _ _ _ _ _ (pop_name :: done)) with (pop := pop) (ids := ids) in H;
      auto.
    + intros q qids Hq Hqd. simpl in Hqd. rewrite dict_get_set in Hqd.
      destruct (String.eqb_spec pop_name q) as [-> | Hne].
      * injection Hqd as <-. exact Hf1.
      * destruct Hq as [-> | Hq]; [contradiction |].
        eapply Forall_impl; [| exact (Hinv q qids Hq Hqd)]. exact Hm1.
    + simpl in Hp. apply in_or_app.
      destruct Hp as [<- | Hp]; [right; left; reflexivity |].
      apply in_app_or in Hp. destruct Hp; [left | right; right]; auto.
Qed.

Lemma setup_lfp_coeffs_loop_ids pops :
  forall self host self',
    setup_lfp_coeffs_loop libm_log interpolate self host pops = Ok self' ->
    lfp_ids self' = lfp_ids self /\ lfp_types self' = lfp_types self.
Proof.
  induction pops as [| pop_name rest IH]; intros self host self' H;
    simpl in H.
  - injection H as <-. auto.
  - repeat bind_ok H. apply IH in H. exact H.
Qed.

(** X7: after the construction, every section of every cell recorded in
    [lfp_ids] carries the extracellular mechanism in the host, so the
    coefficient loop and the sampling loop pass over none of them. *)
Theorem selected_cells_marked host label pop_gid_dict pos rho fdst maxEDist
    dt_lfp seed self host' pop ids :
  init libm_log interpolate ranlfp host label pop_gid_dict pos
       rho fdst maxEDist dt_lfp seed = Ok (self, host') ->
  In pop (map fst pop_gid_dict) ->
  dict_get (lfp_ids self) pop = Ok ids ->
  Forall (marked host') ids.
Proof.
  intros H Hp Hd. unfold init, setup_lfp in H. bind_ok H.
  destruct a as [self1 host1]. bind_ok H. injection H as <- <-.
  unfold setup_lfp_coeffs in E0.
  apply setup_lfp_coeffs_loop_ids in E0. destruct E0 as [Hi _].
  rewrite Hi in Hd.
  apply (pop_loop_marked _ _ _ _ _ _ []) with (pop := pop) (ids := ids) in E;
    auto.
  - intros q qids [].
  - simpl. apply in_or_app. left. now apply in_sorted.
Qed.

End Marked.

End LfpMoreFacts.

(** ** Concrete networks *)

Module LfpMoreWitnesses.

Import PyFloat Lfp LfpShape LfpExamples.
Open Scope float_scope.

Lemma host0_counted : segments_counted host0.
Proof.
  intros gid szs. unfold shape, host0.
  repeat (match goal with
          | |- context [match ?p with _ => _ end] => destruct p
          end; simpl; try discriminate);
    intros [= <-]; repeat constructor; simpl; lia.
Qed.

Lemma init_tables_witness :
  exists self host',
    init toy_log toy_interpolate toy_ran host0 "lfp" pops0 (0, 0, 0)
         333 0.5 100 0.5 1 = Ok (self, host')
    /\ Lfp.pop_gid_dict self = pops0
    /\ (forall g, shape host' g = shape host0 g)
    /\ object_fits (shape host0) self (map fst pops0).
Proof.
  destruct (init toy_log toy_interpolate toy_ran host0 "lfp" pops0 (0, 0, 0)
              333 0.5 100 0.5 1) as [[self host'] | e] eqn:E.
  - exists self, host'. split; [reflexivity |].
    exact (LfpMoreFacts.init_tables toy_log toy_interpolate toy_ran host0
             "lfp" pops0 (0, 0, 0) 333 0.5 100 0.5 1 self host'
             host0_counted E).
  - vm_compute in E. discriminate E.
Defined.

Lemma sample_lfp_returns_witness :
  exists self host',
    init toy_log toy_interpolate toy_ran host0 "lfp" pops0 (0, 0, 0)
         333 0.5 100 0.5 1 = Ok (self, host')
    /\ exists self',
         sample_lfp self (mkTick host' 0 1.5 (fun v => v))
         = Ok (self', 1.5 + Lfp.dt_lfp self).
Proof.
  destruct (init toy_log toy_interpolate toy_ran host0 "lfp" pops0 (0, 0, 0)
              333 0.5 100 0.5 1) as [[self host'] | e] eqn:E.
  - exists self, host'. split; [reflexivity |].
    exact (LfpMoreFacts.sample_lfp_returns toy_log toy_interpolate toy_ran
             host0 "lfp" pops0 (0, 0, 0) 333 0.5 100 0.5 1 self host'
             (mkTick host' 0 1.5 (fun v => v)) host0_counted E
             (fun g => eq_refl)).
  - vm_compute in E. discriminate E.
Defined.

Lemma samples_in_order_witness :
  exists self host',
    init toy_log toy_interpolate toy_ran host0 "lfp" pops0 (0, 0, 0)
         333 0.5 100 0.5 1 = Ok (self, host')
    /\ t (run_samples self [mkTick host' 0 1.5 (fun v => v);
                            mkTick host' 1 2 (fun v => v);
                            mkTick host' 0 2.5 (fun v => v)])
       = [1.5; 2.5].
Proof.
  destruct (init toy_log toy_interpolate toy_ran host0 "lfp" pops0 (0, 0, 0)
              333 0.5 100 0.5 1) as [[self host'] | e] eqn:E.
  - exists self, host'. split; [reflexivity |].
    apply (LfpMoreFacts.samples_in_order toy_log toy_interpolate toy_ran
             host0 "lfp" pops0 (0, 0, 0) 333 0.5 100 0.5 1 self host'
             [mkTick host' 0 1.5 (fun v => v);
              mkTick host' 1 2 (fun v => v);
              mkTick host' 0 2.5 (fun v => v)] host0_counted E).
    repeat constructor.
  - vm_compute in E. discriminate E.
Defined.

Lemma selected_cells_marked_witness :
  exists self host' ids,
    init toy_log toy_interpolate toy_ran host0 "lfp" pops0 (0, 0, 0)
         333 0.5 100 0.5 1 = Ok (self, host')
    /\ dict_get (lfp_ids self) "PYR" = Ok ids
    /\ Forall (marked host') ids.
Proof.
  destruct (init toy_log toy_interpolate toy_ran host0 "lfp" pops0 (0, 0, 0)
              333 0.5 100 0.5 1) as [[self host'] | e] eqn:E.
  - destruct (dict_get (lfp_ids self) "PYR") as [ids | e] eqn:Ed.
    + exists self, host', ids. split; [reflexivity | split; [exact Ed |]].
      apply (LfpMoreFacts.selected_cells_marked toy_log toy_interpolate
               toy_ran host0 "lfp" pops0 (0, 0, 0) 333 0.5 100 0.5 1
               self host' "PYR"%string ids E); [| exact Ed].
      simpl. left. reflexivity.
    + vm_compute in E. injection E as <- _. vm_compute in Ed.
      discriminate Ed.
  - vm_compute in E. discriminate E.
Defined.

(** The two sections of a cell with three Vector entries: the third is
    never written. *)
Lemma cell_coeffs_untouched_witness :
  exists vec',
    cell_coeffs toy_log toy_interpolate lfp1 1
                (map insert_extracellular (all (pyr 10))) [7; 7; 7] = Ok vec'
    /\ List.length vec' = 3%nat
    /\ nth_error vec' 2 = Some 7.
Proof.
  destruct (cell_coeffs toy_log toy_interpolate lfp1 1
              (map insert_extracellular (all (pyr 10))) [7; 7; 7])
    as [vec' | e] eqn:E.
  - exists vec'. split; [reflexivity |].
    destruct (LfpMoreFacts.cell_coeffs_untouched toy_log toy_interpolate
                lfp1 1 _ _ _ E) as [Hlen Hout].
    split; [exact Hlen |]. rewrite (Hout 2%nat); [reflexivity |].
    intros sec Hin _. simpl in Hin.
    destruct Hin as [<- | [<- | []]]; simpl; lia.
  - vm_compute in E. discriminate E.
Defined.

Lemma interpxyz_nodes_witness :
  exists last step half rangev,
    nth_error [0; 20] (2 - 1) = Some last
    /\ truediv 1.0 (of_nat 2) = Ok step
    /\ truediv 1.0 (of_nat (2 * 2)) = Ok half
    /\ List.length rangev = (2 + 2)%nat
    /\ nth_error rangev 0 = Some 0
    /\ nth_error rangev (2 + 1) = Some 1
    /\ (forall i, (1 <= i <= 2)%nat ->
                  nth_error rangev i = Some (of_nat i * step - half))
    /\ [10; 10; 10; 10]
       = toy_interpolate rangev (map (fun v => v / last) [0; 20]) [10; 10]
    /\ [0; 0; 0; 0]
       = toy_interpolate rangev (map (fun v => v / last) [0; 20]) [0; 0]
    /\ [0; 5; 15; 20]
       = toy_interpolate rangev (map (fun v => v / last) [0; 20]) [0; 20].
Proof.
  apply (LfpMoreFacts.interpxyz_nodes toy_interpolate 2 2
           [10; 10] [0; 0] [0; 20] [0; 20]).
  vm_compute. reflexivity.
Defined.

Lemma sec_coeffs_degenerate_witness :
  sec_coeffs toy_log toy_interpolate lfp1 1 sec_flat [0] = Raise IndexError.
Proof.
  destruct (LfpMoreFacts.sec_coeffs_degenerate toy_log toy_interpolate
              lfp1 1 sec_flat [0] eq_refl) as [H _].
  apply H. reflexivity.
Defined.

End LfpMoreWitnesses.

(** * Further properties of opsin/protocols.py *)

Module ProtocolMoreFacts.

Import PyFloat Protocols ProtocolsMore FloatFacts.
Open Scope float_scope.

(** *** The registry *)

(** X8: the registry and the classes agree: looking up the [protocol]
    attribute of a class in [protocols] gives that class back, every entry
    of [protocols] is filed under the [protocol] attribute of its class,
    and no name is registered twice. *)
Theorem registry_round_trip :
  (forall cls, dict_get protocols (class_protocol cls) = Ok cls)
  /\ (forall name cls, In (name, cls) protocols -> class_protocol cls = name)
  /\ NoDup (map fst protocols).
Proof.
  split; [| split].
  - intros []; reflexivity.
  - unfold protocols. simpl. intros name cls H.
    repeat (destruct H as [H | H]; [injection H as <- <-; reflexivity |]).
    contradiction.
  - unfold protocols. simpl.
    repeat (constructor;
            [simpl; intros H;
             repeat (destruct H as [H | H]; [discriminate H |]); exact H |]).
    constructor.
Qed.

(** *** Protocol.prepare *)


Lemma ltb_asym x y : (x <? y) = true -> (y <? x) = false.
Proof.
  rewrite !ltb_spec. unfold SFltb.
  rewrite (SFcompare_antisym (Prim2SF x) (Prim2SF y)).
  destruct (SFcompare (Prim2SF x) (Prim2SF y)) as [[] |]; simpl;
    auto; discriminate.
Qed.

(** What lines 80-93 can raise. *)
Lemma normalize_cycles_raises self e :
  normalize_cycles self = Raise e -> e = TypeError \/ e = IndexError.
Proof.
  unfold normalize_cycles, hasattr_Dt_total. intros H.
  destruct (raw_cycles self) as [| x | s0 | dct | k items]; simpl in H;
    repeat match type of H with
           | context [match ?x with _ => _ end] => destruct x; simpl in H
           end;
    try discriminate H; try (injection H as <-; auto; fail).
  destruct items as [| it items]; simpl in H.
  - injection H as <-. auto.
  - destruct (item_isscalar it); discriminate H.
Qed.

Lemma as_row_raises items e : as_row items = Raise e -> e = ValueError.
Proof.
  induction items as [| [x | k r] items IH]; simpl; intros H.
  - discriminate H.
  - destruct (as_row items); simpl in H; [discriminate H |].
    injection H as <-. now apply IH.
  - now injection H as <-.
Qed.

Lemma as_rows_raises n items e : as_rows n items = Raise e -> e = ValueError.
Proof.
  induction items as [| [x | k r] items IH]; simpl; intros H.
  - discriminate H.
  - now injection H as <-.
  - destruct (List.length r =? n)%nat; [| now injection H as <-].
    destruct (as_rows n items); simpl in H; [discriminate H |].
    injection H as <-. now apply IH.
Qed.

Lemma cycles_array_raises self e :
  cycles_array self = Raise e ->
  e = TypeError \/ e = IndexError \/ e = ValueError.
Proof.
  unfold cycles_array. intros H.
  destruct (normalize_cycles self) as [c | e0] eqn:Hn; simpl in H.
  - right. right. destruct c as [a | k items | k items]; simpl in H.
    + discriminate H.
    + destruct (as_row items) eqn:Hr; simpl in H; [discriminate H |].
      injection H as <-. now apply as_row_raises in Hr.
    + destruct items as [| [x | k0 r] items].
      * now injection H as <-.
      * now injection H as <-.
      * now apply as_rows_raises in H.
  - injection H as <-. apply normalize_cycles_raises in Hn. tauto.
Qed.

(** X10: [Protocol.prepare] never returns.  When lines 80-93 make an
    array of [cycles], it stops at the call of [cycles2times] on line 95
    with NameError, whatever the other attributes are; otherwise it ends
    in the exception of lines 80-93, a TypeError, an IndexError or a
    ValueError.  Nothing past line 95 is ever run: the result does not
    depend on [phis], [Vs] or the [extraPrep] of the class. *)
Theorem prepare_never_returns sort_reverse extraPrep self :
  is_ok (prepare sort_reverse extraPrep self) = false
  /\ (is_ok (cycles_array self) = true <->
      prepare sort_reverse extraPrep self = Raise (NameError "cycles2times"))
  /\ (forall e,
        cycles_array self = Raise e ->
        prepare sort_reverse extraPrep self = Raise e
        /\ (e = TypeError \/ e = IndexError \/ e = ValueError))
  /\ (forall sort' extraPrep' phis' Vs',
        prepare sort' extraPrep'
          (mkRaw (raw_cycles self) (raw_Dt_delay self) (raw_Dt_total self)
             phis' Vs')
        = prepare sort_reverse extraPrep self).
Proof.
  unfold prepare.
  destruct (cycles_array self) as [a | e] eqn:Ha; simpl.
  - split; [reflexivity | split; [| split]].
    + split; reflexivity.
    + intros e He. discriminate He.
    + intros sort' extraPrep' phis' Vs'.
      unfold cycles_array, normalize_cycles in *.
      simpl. unfold hasattr_Dt_total in *. now rewrite Ha.
  - pose proof (cycles_array_raises self e Ha) as Hk.
    split; [reflexivity | split; [| split]].
    + split; [discriminate |].
      intros H. injection H as ->.
      destruct Hk as [Hk | [Hk | Hk]]; discriminate Hk.
    + intros e' He. injection He as <-. auto.
    + intros sort' extraPrep' phis' Vs'.
      unfold cycles_array, normalize_cycles in *.
      simpl. unfold hasattr_Dt_total in *. now rewrite Ha.
Qed.

(** *** Protocol.getStimArray *)

(** X11: how [getStimArray] fails, for a run whose cycles
    [getRunCycles] returns: TypeError while [phi_ts] is [None];
    AssertionError when the run has another number of waveforms than
    cycles; TypeError when the delay is [None]; ZeroDivisionError when
    [dt] is a zero. *)
Theorem getStimArray_errors getRC self run phiInd dt cyc delay :
  getRC self run = Ok (cyc, delay) ->
  (phi_ts self = None ->
   getStimArray getRC self run phiInd dt = Raise TypeError)
  /\ (forall by_run by_phi fs,
        phi_ts self = Some by_run ->
        getitem by_run run = Ok by_phi ->
        getitem by_phi phiInd = Ok fs ->
        (List.length fs <> List.length cyc ->
         getStimArray getRC self run phiInd dt = Raise AssertionError)
        /\ (List.length fs = List.length cyc -> delay = None ->
            getStimArray getRC self run phiInd dt = Raise TypeError)
        /\ (List.length fs = List.length cyc ->
            forall d, delay = Some d -> (dt =? 0) = true ->
            getStimArray getRC self run phiInd dt = Raise ZeroDivisionError)).
Proof.
  intros Hrc. unfold getStimArray. rewrite Hrc. simpl. split.
  - intros ->. reflexivity.
  - intros by_run by_phi fs -> Hr Hp. simpl. rewrite Hr. simpl.
    rewrite Hp. simpl. split; [| split].
    + intros Hne. apply Nat.eqb_neq in Hne. now rewrite Hne.
    + intros Heq ->. apply Nat.eqb_eq in Heq. now rewrite Heq.
    + intros Heq d -> Hz. apply Nat.eqb_eq in Heq. rewrite Heq. simpl.
      unfold truediv. now rewrite Hz.
Qed.

Lemma set_last_length l v : List.length (set_last l v) = List.length l.
Proof.
  induction l as [| x [| y tl] IH]; simpl in *; auto.
Qed.

Lemma set_last_last l v d : l <> [] -> last (set_last l v) d = v.
Proof.
  induction l as [| x [| y tl] IH]; intros Hne.
  - contradiction.
  - reflexivity.
  - change (set_last (x :: y :: tl) v) with (x :: set_last (y :: tl) v).
    assert (Hs : set_last (y :: tl) v <> []).
    { intros Hs. apply (f_equal (@List.length float)) in Hs.
      rewrite set_last_length in Hs. discriminate. }
    destruct (set_last (y :: tl) v) as [| z zs] eqn:Hz; [contradiction |].
    change (last (x :: z :: zs) d) with (last (z :: zs) d).
    apply IH. discriminate.
Qed.

(** [np.linspace] returns [num] samples and, with more than one sample,
    ends exactly at [stop]. *)
Lemma linspace_spec start stop num l :
  linspace start stop num = Ok l ->
  (0 <= num)%Z
  /\ List.length l = Z.to_nat num
  /\ ((1 < num)%Z -> last l 0 = stop).
Proof.
  unfold linspace. destruct (Z.ltb_spec num 0); [discriminate |].
  intros [= <-]. split; [lia |].
  set (y := map (fun v => v + start) _).
  assert (Hy : List.length y = Z.to_nat num).
  { unfold y. rewrite length_map.
    destruct (0 <? num - 1)%Z; [destruct (_ =? _) |];
      now rewrite !length_map, length_seq. }
  destruct (Z.ltb_spec 1 num).
  - split; [now rewrite set_last_length |].
    intros _. apply set_last_last. intros Hn. rewrite Hn in Hy.
    simpl in Hy. lia.
  - split; [exact Hy | lia].
Qed.

Lemma pulse_samples_prefix cyc fs dt n :
  forall p t_end acc out,
    pulse_samples cyc fs dt p n t_end acc = Ok out ->
    exists rest, out = acc ++ rest.
Proof.
  induction n as [| n IH]; intros p t_end acc out H; simpl in H.
  - injection H as <-. exists []. now rewrite app_nil_r.
  - repeat bind_ok H. apply IH in H. destruct H as [rest ->].
    rewrite <- app_assoc. eauto.
Qed.

Lemma clamp_zeros n rest :
  clamp_negative (repeat 0 n ++ rest) = repeat 0 n ++ clamp_negative rest.
Proof.
  unfold clamp_negative. rewrite map_app. f_equal.
  induction n as [| n IH]; simpl; [reflexivity |]. now rewrite IH.
Qed.

Lemma map_const_repeat {A} (l : list A) (c : float) :
  map (fun _ => c) l = repeat c (List.length l).
Proof. induction l; simpl; congruence. Qed.

(** X12: the array [getStimArray] returns opens with the delay period,
    [round(Dt_delay/dt + 1)] samples that are all zero, and the samples of
    the pulses follow. *)
Theorem getStimArray_delay getRC self run phiInd dt arr :
  getStimArray getRC self run phiInd dt = Ok arr ->
  exists cyc d n rest,
    getRC self run = Ok (cyc, Some d)
    /\ round ((d - 0) / dt + 1) = Ok n
    /\ (0 <= n)%Z
    /\ arr = repeat 0 (Z.to_nat n) ++ rest.
Proof.
  unfold getStimArray. intros H. bind_ok H. destruct a as [cyc delay].
  repeat bind_ok H. destruct (negb _); [discriminate H |].
  repeat bind_ok H. injection H as <-.
  destruct delay as [d |]; [| discriminate]. simpl in E4.
  injection E4 as <-.
  unfold truediv in E5. destruct (dt =? 0); [discriminate |].
  injection E5 as <-.
  destruct (linspace_spec _ _ _ _ E7) as [Hn [Hlen _]].
  apply pulse_samples_prefix in E8. destruct E8 as [rest ->].
  rewrite map_const_repeat, Hlen, clamp_zeros. eauto 8.
Qed.

(** *** protSinusoid.genPulse *)

(** X14: the sample grid of [protSinusoid.genPulse] has
    [round(Dt_on * sr / 1000) + 1] points, and with at least two points it
    ends exactly at [Dt_on = pEnd - pStart]. *)
Theorem sample_times_grid self pStart pEnd ts :
  sample_times self (pStart, pEnd) = Ok ts ->
  exists n,
    round ((pEnd - pStart) * of_Z (sr self) / 1000) = Ok n
    /\ (0 <= n + 1)%Z
    /\ List.length ts = Z.to_nat (n + 1)
    /\ ((1 <= n)%Z -> last ts 0 = pEnd - pStart).
Proof.
  unfold sample_times. intros H. bind_ok H.
  destruct (linspace_spec _ _ _ _ H) as [Hn [Hlen Hlast]].
  exists a. repeat split; auto. intros Hge. apply Hlast. lia.
Qed.

(** [genPulse] needs an offset and a frequency for the run. *)
Lemma genPulse_run_out_of_range lib self run phi pulse ts :
  sample_times self pulse = Ok ts ->
  (List.length (phi0 self) <= run)%nat ->
  genPulse lib self run phi pulse = Raise IndexError.
Proof.
  intros Hts Hrun. unfold genPulse. destruct pulse as [pStart pEnd].
  rewrite Hts. simpl. unfold getitem at 1 3.
  apply nth_error_None in Hrun. rewrite Hrun. now destruct (startOn self).
Qed.

(** *** Square and ramp pulses *)

(** X15: with a spline constructor that passes through its points, the
    default (square) waveform takes the value [phi] at both ends of the
    pulse, and the ramp waveform starts at [phi0] and ends at
    [phi0 + phi]; a pulse that is not a pair is a ValueError. *)
Theorem pulse_ends lib run phi phi0 pStart pEnd :
  interpolating lib ->
  (forall f, genPulse_square lib run phi [pStart; pEnd] = Ok f ->
             f pStart = phi /\ f pEnd = phi)
  /\ (forall f, genPulse_ramp lib phi0 run phi [pStart; pEnd] = Ok f ->
                f pStart = phi0 /\ f pEnd = phi0 + phi)
  /\ (forall pulse, List.length pulse <> 2%nat ->
                    genPulse_square lib run phi pulse = Raise ValueError
                    /\ genPulse_ramp lib phi0 run phi pulse
                       = Raise ValueError).
Proof.
  intros Hlib. split; [| split].
  - intros f H. simpl in H. split.
    + exact (Hlib _ _ _ _ _ H 0%nat pStart phi eq_refl eq_refl).
    + exact (Hlib _ _ _ _ _ H 1%nat pEnd phi eq_refl eq_refl).
  - intros f H. simpl in H. split.
    + exact (Hlib _ _ _ _ _ H 0%nat pStart phi0 eq_refl eq_refl).
    + exact (Hlib _ _ _ _ _ H 1%nat pEnd (phi0 + phi) eq_refl eq_refl).
  - intros pulse Hlen.
    destruct pulse as [| a [| b [| c tl]]]; try (split; reflexivity).
    contradiction.
Qed.

(** *** Iteration over the runs *)

Lemma drain_step getRC self nRuns fuel run :
  drain getRC self nRuns (S fuel) run
  = match next getRC self nRuns run with
    | (_, StopIteration) => Ok []
    | (_, Fail e) => Raise e
    | (run', Yield v) =>
        let* rest := drain getRC self nRuns fuel run' in
        Ok (v :: rest)
    end.
Proof. reflexivity. Qed.

Lemma drain_from getRC self nRuns k :
  forall run, (run + k = nRuns)%nat ->
    drain getRC self nRuns (S k) run = map_result (getRC self) (seq run k).
Proof.
  induction k as [| k IH]; intros run Hk.
  - rewrite drain_step. unfold next.
    destruct (Nat.ltb_spec nRuns (run + 1)); [reflexivity | lia].
  - change (seq run (S k)) with (run :: seq (S run) k).
    rewrite drain_step. unfold next.
    destruct (Nat.ltb_spec nRuns (run + 1)); [lia |].
    replace (run + 1 - 1)%nat with run by lia.
    replace (run + 1)%nat with (S run) by lia.
    rewrite (IH (S run)) by lia. simpl map_result.
    destruct (getRC self run) as [v | e]; [| reflexivity].
    now destruct (map_result (getRC self) (seq (S run) k)).
Qed.

(** X16: iterating over a protocol yields [getRunCycles(0)], ...,
    [getRunCycles(nRuns - 1)] in this order and then stops; an exception
    of [getRunCycles] ends it; and once the runs are used up every further
    [__next__] raises StopIteration. *)
Theorem iteration_runs getRC self nRuns :
  drain getRC self nRuns (S nRuns) iter_start
  = map_result (getRC self) (seq 0 nRuns)
  /\ forall run, (nRuns <= run)%nat ->
                 snd (next getRC self nRuns run) = StopIteration.
Proof.
  split.
  - apply drain_from. reflexivity.
  - intros run Hrun. unfold next.
    destruct (Nat.ltb_spec nRuns (run + 1)); [reflexivity | lia].
Qed.

(** *** getShortestPeriod *)

Lemma SFcompare_lt_trans x y z :
  SFcompare x y = Some Lt -> SFcompare y z = Some Lt ->
  SFcompare x z = Some Lt.
Proof.
  destruct x as [sx|sx| |sx mx ex], y as [sy|sy| |sy my ey],
    z as [sz|sz| |sz mz ez]; simpl; try discriminate;
    try (destruct sx); try (destruct sy); try (destruct sz);
    simpl; try discriminate; try reflexivity.
  all: change (PosDef.Pos.compare_cont Eq) with Pos.compare.
  all: destruct (Z.compare_spec ex ey); destruct (Z.compare_spec ey ez);
    destruct (Z.compare_spec ex ez); simpl; try discriminate;
    try reflexivity; try lia.
  all: destruct (Pos.compare_spec mx my); destruct (Pos.compare_spec my mz);
    destruct (Pos.compare_spec mx mz); simpl; try discriminate;
    try reflexivity; try lia.
Qed.

Lemma ltb_trans x y z :
  (x <? y) = true -> (y <? z) = true -> (x <? z) = true.
Proof.
  rewrite !ltb_spec. unfold SFltb.
  destruct (SFcompare (Prim2SF x) (Prim2SF y)) as [[] |] eqn:H1;
    try discriminate.
  destruct (SFcompare (Prim2SF y) (Prim2SF z)) as [[] |] eqn:H2;
    try discriminate.
  now rewrite (SFcompare_lt_trans _ _ _ H1 H2).
Qed.

Lemma ltb_irrefl x : (x <? x) = false.
Proof.
  destruct (x <? x) eqn:H; [| reflexivity].
  now rewrite (ltb_asym x x H) in H.
Qed.

(** Nothing is below NaN. *)
Lemma ltb_nan_r y a : is_nan a = true -> (y <? a) = false.
Proof.
  unfold is_nan. rewrite eqb_spec, ltb_spec. unfold SFeqb, SFltb.
  destruct (Prim2SF a) as [s | s | | s m e]; simpl.
  - discriminate.
  - destruct s; discriminate.
  - intros _. now destruct (Prim2SF y).
  - rewrite Z.compare_refl.
    change (PosDef.Pos.compare_cont Eq m m) with (Pos.compare m m).
    rewrite Pos.compare_refl. destruct s; discriminate.
Qed.

Lemma np_minimum_lower a b y :
  (y <? a) = false \/ y = b -> (y <? np_minimum a b) = false.
Proof.
  unfold np_minimum. intros H.
  destruct (is_nan a) eqn:Ha.
  - now apply ltb_nan_r.
  - destruct (is_nan b) eqn:Hb; [now apply ltb_nan_r |].
    destruct (b <? a) eqn:Hba.
    + destruct H as [H | ->]; [| apply ltb_irrefl].
      destruct (y <? b) eqn:Hyb; [| reflexivity].
      now rewrite (ltb_trans y b a Hyb Hba) in H.
    + destruct H as [H | ->]; assumption.
Qed.

Lemma np_minimum_choice a b : np_minimum a b = a \/ np_minimum a b = b.
Proof.
  unfold np_minimum. destruct (is_nan a); auto.
  destruct (is_nan b); auto. destruct (b <? a); auto.
Qed.

Lemma fold_minimum_in tl :
  forall acc, In (fold_left np_minimum tl acc) (acc :: tl).
Proof.
  induction tl as [| b tl IH]; intros acc; simpl; auto.
  destruct (IH (np_minimum acc b)) as [H | H].
  - destruct (np_minimum_choice acc b) as [Hc | Hc];
      [left | right; left]; rewrite <- Hc at 1; exact H.
  - right; right; exact H.
Qed.

Lemma fold_minimum_lower tl :
  forall acc y,
    (y <? acc) = false \/ In y tl ->
    (y <? fold_left np_minimum tl acc) = false.
Proof.
  induction tl as [| b tl IH]; intros acc y H; simpl.
  - destruct H as [H | []]. exact H.
  - apply IH. destruct H as [H | [-> | H]]; auto.
    + left. apply np_minimum_lower. now left.
    + left. apply np_minimum_lower. now right.
Qed.

(** X17: [getShortestPeriod] returns an entry of [cycles] that is not
    zero and that no other non-zero entry is below (NaN, when one of them
    is NaN); when every entry of [cycles] is zero it raises ValueError. *)
Theorem getShortestPeriod_spec self :
  (Forall (fun x => (x =? 0) = true) (List.concat (cycles self)) ->
   getShortestPeriod self = Raise ValueError)
  /\ forall m,
       getShortestPeriod self = Ok m ->
       In m (List.concat (cycles self))
       /\ (m =? 0) = false
       /\ forall x, In x (List.concat (cycles self)) -> (x =? 0) = false ->
                    (x <? m) = false.
Proof.
  unfold getShortestPeriod, nonzero_entries. split.
  - intros Hall.
    assert (Hnil : filter (fun x => negb (x =? 0)) (List.concat (cycles self))
                   = []).
    { induction (List.concat (cycles self)) as [| x l IH]; [reflexivity |].
      inversion Hall as [| x' l' Hx Hl]; subst. simpl. rewrite Hx. simpl.
      now apply IH. }
    now rewrite Hnil.
  - intros m H.
    destruct (filter _ _) as [| x0 tl] eqn:Hf; [discriminate |].
    simpl in H. injection H as <-.
    assert (Hin : In (fold_left np_minimum tl x0) (x0 :: tl))
      by apply fold_minimum_in.
    rewrite <- Hf in Hin. apply filter_In in Hin. destruct Hin as [Hin Hnz].
    split; [exact Hin | split].
    + now apply negb_true_iff in Hnz.
    + intros x Hx Hxz. apply fold_minimum_lower.
      assert (Hxf : In x (x0 :: tl)).
      { rewrite <- Hf. apply filter_In. split; [exact Hx |].
        now rewrite Hxz. }
      destruct Hxf as [-> | Hxf]; [left; apply ltb_irrefl | now right].
Qed.

(** *** genPulseSet *)

(** X18: [genPulseSet] returns only for an object without runs, and then
    the empty list.  With a run to go through, the first pass of the loop
    ends it: in the exception of [getRunCycles(0)], or else in NameError
    at the call of [cycles2times] on line 138.  No waveform is ever
    generated: the outcome does not depend on the pulse generator. *)
Theorem genPulseSet_stops getRC genPulse self nRuns :
  (nRuns = 0%nat -> genPulseSet getRC genPulse self nRuns = Ok [])
  /\ ((0 < nRuns)%nat ->
      (forall v, getRC self 0%nat = Ok v ->
                 genPulseSet getRC genPulse self nRuns
                 = Raise (NameError "cycles2times"))
      /\ (forall e, getRC self 0%nat = Raise e ->
                    genPulseSet getRC genPulse self nRuns = Raise e))
  /\ (forall genPulse',
        genPulseSet getRC genPulse' self nRuns
        = genPulseSet getRC genPulse self nRuns).
Proof.
  unfold genPulseSet. destruct nRuns as [| n].
  - split; [reflexivity | split; [lia | reflexivity]].
  - split; [discriminate | split].
    + intros _. cbn [seq run_loop].
      split; [intros [cyc delay] Hv | intros e He].
      * now rewrite Hv.
      * now rewrite He.
    + intros genPulse'. cbn [seq run_loop].
      now destruct (getRC self 0%nat) as [[cyc delay] | e].
Qed.

(** *** protDelta.prepare *)

(** X19: the override of [prepare] in [protDelta] never returns.  It
    raises TypeError when [Dt_total] or [Dt_delay] is [None] and
    AssertionError when [Dt_total] is not at least [Dt_delay + Dt_on] (a
    NaN included); when the assertion holds it stops at the call of
    [cycles2times] on line 804 with NameError. *)
Theorem prepare_delta_spec sort_reverse lib Dt_on self :
  (raw_Dt_total self = None \/ raw_Dt_delay self = None ->
   prepare_delta sort_reverse lib Dt_on self = Raise TypeError)
  /\ (forall total delay,
        raw_Dt_total self = Some total -> raw_Dt_delay self = Some delay ->
        ((delay + Dt_on <=? total) = false ->
         prepare_delta sort_reverse lib Dt_on self = Raise AssertionError)
        /\ ((delay + Dt_on <=? total) = true ->
            prepare_delta sort_reverse lib Dt_on self
            = Raise (NameError "cycles2times")))
  /\ is_ok (prepare_delta sort_reverse lib Dt_on self) = false.
Proof.
  unfold prepare_delta. split; [| split].
  - intros [H | H]; rewrite H; [reflexivity |].
    now destruct (raw_Dt_total self).
  - intros total delay Ht Hd. rewrite Ht, Hd. simpl.
    split; intros Hle; now rewrite Hle.
  - destruct (raw_Dt_total self) as [total |]; [| reflexivity].
    destruct (raw_Dt_delay self) as [delay |]; [| reflexivity].
    simpl. now destruct (delay + Dt_on <=? total).
Qed.

(** *** protDelta.finish *)

(** X21: [protDelta.finish] returns normally only when the clamp voltage
    [PC.V] is [None], and then prints nothing.  With a voltage away from
    the reversal potential it computes [Gmax] and the estimate and stops
    at [config.verbose] on line 840 with NameError, before anything is
    printed. *)
Theorem finish_outcomes PC RhO :
  (V PC = None -> finish PC RhO = ([], Ok tt))
  /\ (forall v, V PC = Some v -> (v - E RhO =? 0) = false ->
                finish PC RhO = ([], Raise (NameError "config")))
  /\ (snd (finish PC RhO) = Ok tt <-> V PC = None).
Proof.
  unfold finish, truediv, report_gbar, unbound. split; [| split].
  - now intros ->.
  - intros v -> Hz. now rewrite Hz.
  - destruct (V PC) as [v |]; [| split; reflexivity].
    destruct (v - E RhO =? 0); simpl; split; discriminate.
Qed.

End ProtocolMoreFacts.

Module ProtocolMoreWitnesses.

Import PyFloat Protocols ProtocolsMore ProtocolExamples.
Open Scope float_scope.

(** A zero time step on a prepared protocol. *)
Lemma getStimArray_errors_witness :
  getStimArray getRunCycles falling 0 0 0 = Raise ZeroDivisionError.
Proof.
  destruct (ProtocolMoreFacts.getStimArray_errors getRunCycles falling
              0 0 0 [[10; 5]] (Some 5) eq_refl) as [_ H].
  destruct (H [[[fun t => 12 - t]]] [[fun t => 12 - t]] [fun t => 12 - t]
              eq_refl eq_refl eq_refl) as [_ [_ H3]].
  apply (H3 eq_refl 5 eq_refl). reflexivity.
Defined.

Lemma getStimArray_delay_witness :
  exists arr cyc d n rest,
    getStimArray getRunCycles falling 0 0 1 = Ok arr
    /\ getRunCycles falling 0 = Ok (cyc, Some d)
    /\ round ((d - 0) / 1 + 1) = Ok n
    /\ (0 <= n)%Z
    /\ arr = repeat 0 (Z.to_nat n) ++ rest.
Proof.
  destruct (getStimArray getRunCycles falling 0 0 1) as [arr | e] eqn:E.
  - destruct (ProtocolMoreFacts.getStimArray_delay getRunCycles falling
                0 0 1 arr E) as [cyc [d [n [rest H]]]].
    exists arr, cyc, d, n, rest. split; [reflexivity | exact H].
  - vm_compute in E. discriminate E.
Defined.

Lemma sample_times_grid_witness :
  exists ts n,
    sample_times sin50 (25, 26) = Ok ts
    /\ round ((26 - 25) * of_Z (sr sin50) / 1000) = Ok n
    /\ (0 <= n + 1)%Z
    /\ List.length ts = Z.to_nat (n + 1)
    /\ ((1 <= n)%Z -> last ts 0 = 26 - 25).
Proof.
  destruct (sample_times sin50 (25, 26)) as [ts | e] eqn:E.
  - destruct (ProtocolMoreFacts.sample_times_grid sin50 25 26 ts E)
      as [n H].
    exists ts, n. split; [reflexivity | exact H].
  - vm_compute in E. discriminate E.
Defined.

Lemma pulse_ends_witness :
  exists f g,
    genPulse_square toy_lib 0 2 [25; 26] = Ok f
    /\ genPulse_ramp toy_lib 1 0 2 [25; 26] = Ok g
    /\ (f 25 = 2 /\ f 26 = 2)
    /\ (g 25 = 1 /\ g 26 = 1 + 2).
Proof.
  destruct (ProtocolMoreFacts.pulse_ends toy_lib 0 2 1 25 26
              ProtocolWitnesses.toy_lib_interpolating) as [Hs [Hr _]].
  destruct (genPulse_square toy_lib 0 2 [25; 26]) as [f | e] eqn:Ef;
    [| vm_compute in Ef; discriminate Ef].
  destruct (genPulse_ramp toy_lib 1 0 2 [25; 26]) as [g | e] eqn:Eg;
    [| vm_compute in Eg; discriminate Eg].
  exists f, g. repeat split; try apply (Hs f eq_refl);
    apply (Hr g eq_refl).
Defined.

Lemma getShortestPeriod_spec_witness :
  exists m,
    getShortestPeriod falling = Ok m
    /\ In m [10; 5]
    /\ (m =? 0) = false.
Proof.
  destruct (getShortestPeriod falling) as [m | e] eqn:E.
  - destruct (ProtocolMoreFacts.getShortestPeriod_spec falling) as [_ H].
    destruct (H m E) as [H1 [H2 _]].
    exists m. repeat split; assumption.
  - vm_compute in E. discriminate E.
Defined.

(** One run of the prepared protocol [falling]. *)
Lemma genPulseSet_stops_witness :
  genPulseSet getRunCycles (genPulse_square toy_lib) falling 1
  = Raise (NameError "cycles2times").
Proof.
  destruct (ProtocolMoreFacts.genPulseSet_stops getRunCycles
              (genPulse_square toy_lib) falling 1) as [_ [H _]].
  destruct (H ltac:(lia)) as [Hv _].
  exact (Hv (cycles falling, Dt_delay falling) eq_refl).
Defined.

(** A delta protocol of 10 ns after a delay of 25 ms, and the same in a
    total duration that is shorter than the delay. *)
Lemma prepare_delta_spec_witness :
  prepare_delta toy_sort toy_lib 1e-5
    (mkRaw CyNone (Some 25) (Some 175) (Nums [1e15; 1e16]) (Nums [-70]))
  = Raise (NameError "cycles2times")
  /\ prepare_delta toy_sort toy_lib 1e-5
       (mkRaw CyNone (Some 25) (Some 20) (Nums [1e15; 1e16]) (Nums [-70]))
     = Raise AssertionError.
Proof.
  split.
  - destruct (ProtocolMoreFacts.prepare_delta_spec toy_sort toy_lib 1e-5
                (mkRaw CyNone (Some 25) (Some 175) (Nums [1e15; 1e16])
                   (Nums [-70]))) as [_ [H _]].
    destruct (H 175 25 eq_refl eq_refl) as [_ Hn].
    apply Hn. reflexivity.
  - destruct (ProtocolMoreFacts.prepare_delta_spec toy_sort toy_lib 1e-5
                (mkRaw CyNone (Some 25) (Some 20) (Nums [1e15; 1e16])
                   (Nums [-70]))) as [_ [H _]].
    destruct (H 20 25 eq_refl eq_refl) as [Ha _].
    apply Ha. reflexivity.
Defined.

(** A photocurrent clamped 70 mV below the reversal potential. *)
Lemma finish_outcomes_witness :
  finish (mkPC (Some (-70)) (-1.5)) RhO0 = ([], Raise (NameError "config")).
Proof.
  destruct (ProtocolMoreFacts.finish_outcomes (mkPC (Some (-70)) (-1.5)) RhO0)
    as [_ [H _]].
  apply (H (-70)); reflexivity.
Defined.

End ProtocolMoreWitnesses.
